(** * learning-chatbot: the streaming chat transport and the chat session hook

    A shallow embedding of

    - [frontend/src/types/index.ts]   (the wire types),
    - [frontend/src/api/client.ts]    ([streamChat], the line-framed event
                                       stream reader and its cancel handle),
    - [frontend/src/hooks/useChat.ts] (the [useChat] hook: [sendMessage],
                                       [clearHistory], [stopStreaming] and the
                                       history effect),
    - [frontend/src/components/Chat.tsx] ([handleSubmit], the caller of
                                       [sendMessage]),

    followed by the properties of the streaming protocol and of the session
    state that the specification states about them.

    Conventions.  A JavaScript string is a [string]; one [ascii] stands for one
    code unit, so the development speaks about text whose code units fit eight
    bits.  React state is threaded explicitly: a state setter called with an
    updater is the application of that updater, in call order.  Promises are
    cut at their [await]s: the part before the [await] is one function, the
    continuation is another one that receives the outcome.  Requests issued to
    the outside are returned as values of an effect type. *)

From Stdlib Require Import String Ascii List Bool Arith NArith Lia DecimalString.
Import ListNotations.
Open Scope string_scope.
Set Warnings "-register-all".

(* ================================================================== *)
(** ** JavaScript built-ins used by the sources *)
(* ================================================================== *)

Module JS.

(** The line feed, written ['\n'] in the sources. *)
Definition LF : ascii := "010"%char.

(** The double quote character. *)
Definition DQ : ascii := "034"%char.

Definition nl : string := String LF "".
Definition dq : string := String DQ "".

(** [s.split(sep)] for a one-character separator.  The result is never
    empty: the empty string splits into [[""]]. *)
Fixpoint split (sep : ascii) (s : string) : list string :=
  match s with
  | EmptyString => [""]
  | String c r =>
      if Ascii.eqb c sep then "" :: split sep r
      else match split sep r with
           | p :: ps => String c p :: ps
           | [] => [String c ""]
           end
  end.

(** [a.pop()]: the array without its last element, and that element
    ([None] is [undefined], on the empty array). *)
Definition pop {A : Type} (a : list A) : list A * option A :=
  match a with
  | [] => ([], None)
  | x :: r => (removelast a, Some (last r x))
  end.

(** [v || ''] for [v : string | undefined]. *)
Definition or_empty (v : option string) : string :=
  match v with
  | Some s => s
  | None => ""
  end.

(** [s.startsWith(p)]. *)
Definition startsWith (p s : string) : bool := String.prefix p s.

(** [s.slice(n)] for [0 <= n]. *)
Fixpoint slice (n : nat) (s : string) : string :=
  match n, s with
  | O, _ => s
  | S k, String _ r => slice k r
  | S _, EmptyString => ""
  end.

(** White space and line terminators removed by [trim], among the code
    units below 256: TAB, LF, VT, FF, CR, SP and NBSP. *)
Definition is_white (c : ascii) : bool :=
  let n := nat_of_ascii c in
  (((9 <=? n) && (n <=? 13)) || (n =? 32) || (n =? 160))%nat.

Fixpoint trimStart (s : string) : string :=
  match s with
  | EmptyString => ""
  | String c r => if is_white c then trimStart r else s
  end.

Fixpoint trimEnd (s : string) : string :=
  match s with
  | EmptyString => ""
  | String c r =>
      let r' := trimEnd r in
      if is_white c && (r' =? "") then "" else String c r'
  end.

(** [s.trim()]. *)
Definition trim (s : string) : string := trimEnd (trimStart s).

(** [`${n}`] for a non-negative integer [n]. *)
Definition decimal (n : N) : string := NilEmpty.string_of_uint (N.to_uint n).

(** A thrown [Error] object, as far as the sources look at it. *)
Record Error : Type := mkError { name : string; message : string }.

(** [new Error(msg)]. *)
Definition new_Error (msg : string) : Error :=
  {| name := "Error"; message := msg |}.

(** What the platform rejects an aborted [fetch] or [read] with. *)
Definition AbortError : Error :=
  {| name := "AbortError"; message := "The operation was aborted." |}.

End JS.

(* ================================================================== *)
(** ** JSON values *)
(* ================================================================== *)

Module Json.

(** A parsed JSON text.  A number keeps its lexeme: nothing in the sources
    computes with one. *)
Inductive json : Type :=
| JNull
| JBool (b : bool)
| JNumber (lexeme : string)
| JString (s : string)
| JArray (elements : list json)
| JObject (members : list (string * json)).

(** Property access [o.k] on a parsed object: the last member named [k]. *)
Fixpoint get (k : string) (members : list (string * json)) : option json :=
  match members with
  | [] => None
  | (k', v) :: r =>
      match get k r with
      | Some w => Some w
      | None => if k' =? k then Some v else None
      end
  end.

Definition is_ws (c : ascii) : bool :=
  let n := nat_of_ascii c in
  ((n =? 32) || (n =? 9) || (n =? 10) || (n =? 13))%nat.

Fixpoint skip_ws (s : string) : string :=
  match s with
  | String c r => if is_ws c then skip_ws r else s
  | EmptyString => ""
  end.

Definition is_digit (c : ascii) : bool :=
  let n := nat_of_ascii c in ((48 <=? n) && (n <=? 57))%nat.

(** The longest prefix of digits, and the rest. *)
Fixpoint digits (s : string) : string * string :=
  match s with
  | String c r =>
      if is_digit c then let (d, t) := digits r in (String c d, t)
      else ("", s)
  | EmptyString => ("", "")
  end.

Definition hex_val (c : ascii) : option N :=
  let n := N_of_ascii c in
  if (48 <=? n)%N && (n <=? 57)%N then Some (n - 48)%N
  else if (65 <=? n)%N && (n <=? 70)%N then Some (n - 55)%N
  else if (97 <=? n)%N && (n <=? 102)%N then Some (n - 87)%N
  else None.

(** The body of a string literal, after its opening quote. *)
Fixpoint string_body (s : string) : option (string * string) :=
  match s with
  | EmptyString => None
  | String c r =>
      if Ascii.eqb c JS.DQ then Some ("", r)
      else if (nat_of_ascii c <? 32)%nat then None
      else if Ascii.eqb c "\" then
        match r with
        | String e r1 =>
            let continue_with (x : ascii) (t : string) :=
              match string_body t with
              | Some (b, u) => Some (String x b, u)
              | None => None
              end in
            if Ascii.eqb e JS.DQ then continue_with JS.DQ r1
            else if Ascii.eqb e "\" then continue_with "\"%char r1
            else if Ascii.eqb e "/" then continue_with "/"%char r1
            else if Ascii.eqb e "b" then continue_with "008"%char r1
            else if Ascii.eqb e "f" then continue_with "012"%char r1
            else if Ascii.eqb e "n" then continue_with "010"%char r1
            else if Ascii.eqb e "r" then continue_with "013"%char r1
            else if Ascii.eqb e "t" then continue_with "009"%char r1
            else if Ascii.eqb e "u" then
              match r1 with
              | String h1 (String h2 (String h3 (String h4 r2))) =>
                  match hex_val h1, hex_val h2, hex_val h3, hex_val h4 with
                  | Some a, Some b, Some c', Some d =>
                      let u := (((a * 16 + b) * 16 + c') * 16 + d)%N in
                      if (u <? 256)%N then continue_with (ascii_of_N u) r2
                      else None
                  | _, _, _, _ => None
                  end
              | _ => None
              end
            else None
        | EmptyString => None
        end
      else
        match string_body r with
        | Some (b, u) => Some (String c b, u)
        | None => None
        end
  end.

(** A number lexeme: an optional minus sign; an integer part, which is a
    single zero or starts with a non-zero digit; an optional fraction, a dot
    and at least one digit; an optional exponent, [e] or [E], an optional
    sign and at least one digit. *)
Definition number (s : string) : option (string * string) :=
  let (sign, s1) :=
    match s with
    | String "-" r => ("-", r)
    | _ => ("", s)
    end in
  let (int, s2) := digits s1 in
  let int_ok :=
    match int with
    | EmptyString => false
    | String "0" (String _ _) => false
    | _ => true
    end in
  if negb int_ok then None else
  let frac :=
    match s2 with
    | String "." r =>
        let (d, t) := digits r in
        if d =? "" then None else Some ("." ++ d, t)
    | _ => Some ("", s2)
    end in
  match frac with
  | None => None
  | Some (fr, s3) =>
      let exp :=
        match s3 with
        | String e r =>
            if Ascii.eqb e "e" || Ascii.eqb e "E" then
              let (sg, r1) :=
                match r with
                | String "+" r' => ("+", r')
                | String "-" r' => ("-", r')
                | _ => ("", r)
                end in
              let (d, t) := digits r1 in
              if d =? "" then None else Some (String e (sg ++ d), t)
            else Some ("", s3)
        | EmptyString => Some ("", s3)
        end in
      match exp with
      | None => None
      | Some (ex, s4) => Some (sign ++ int ++ fr ++ ex, s4)
      end
  end.

(** [literal w v s]: the value [v] when [s] starts with the word [w]. *)
Definition literal (w : string) (v : json) (s : string) : option (json * string) :=
  if String.prefix w s then Some (v, JS.slice (String.length w) s) else None.

Fixpoint value (fuel : nat) (s : string) {struct fuel} : option (json * string) :=
  match fuel with
  | O => None
  | S f =>
      match skip_ws s with
      | EmptyString => None
      | String c r =>
          if Ascii.eqb c "{" then
            match skip_ws r with
            | String "}" r' => Some (JObject [], r')
            | _ => members f r []
            end
          else if Ascii.eqb c "[" then
            match skip_ws r with
            | String "]" r' => Some (JArray [], r')
            | _ => elements f r []
            end
          else if Ascii.eqb c JS.DQ then
            match string_body r with
            | Some (b, u) => Some (JString b, u)
            | None => None
            end
          else if Ascii.eqb c "t" then literal "true" (JBool true) (String c r)
          else if Ascii.eqb c "f" then literal "false" (JBool false) (String c r)
          else if Ascii.eqb c "n" then literal "null" JNull (String c r)
          else
            match number (String c r) with
            | Some (l, u) => Some (JNumber l, u)
            | None => None
            end
      end
  end

with elements (fuel : nat) (s : string) (acc : list json) {struct fuel}
  : option (json * string) :=
  match fuel with
  | O => None
  | S f =>
      match value f s with
      | None => None
      | Some (v, r) =>
          match skip_ws r with
          | String "," r' => elements f r' (v :: acc)
          | String "]" r' => Some (JArray (rev (v :: acc)), r')
          | _ => None
          end
      end
  end

with members (fuel : nat) (s : string) (acc : list (string * json)) {struct fuel}
  : option (json * string) :=
  match fuel with
  | O => None
  | S f =>
      match skip_ws s with
      | String c r =>
          if Ascii.eqb c JS.DQ then
            match string_body r with
            | None => None
            | Some (k, r1) =>
                match skip_ws r1 with
                | String ":" r2 =>
                    match value f r2 with
                    | None => None
                    | Some (v, r3) =>
                        match skip_ws r3 with
                        | String "," r' => members f r' ((k, v) :: acc)
                        | String "}" r' => Some (JObject (rev ((k, v) :: acc)), r')
                        | _ => None
                        end
                    end
                | _ => None
                end
            end
          else None
      | EmptyString => None
      end
  end.

(** [JSON.parse(s)]; [None] stands for the [SyntaxError] it throws.  This is
    the JSON grammar on eight-bit text; an escape [\uXXXX] above [00FF] has
    no image in [string] and is refused. *)
Definition parse (s : string) : option json :=
  match value (2 * String.length s + 2) s with
  | Some (v, r) => if skip_ws r =? "" then Some v else None
  | None => None
  end.

End Json.

Import Json.

(* ================================================================== *)
(** ** [types/index.ts] *)
(* ================================================================== *)

Inductive Role : Type := user | assistant.

(** [ChatMessage]: a persisted message, as the history endpoint returns it. *)
Record ChatMessage : Type := mkChatMessage {
  cm_id : string;
  cm_knowledge_base_id : string;
  cm_role : Role;
  cm_content : string;
  cm_sources : option (list string);
  cm_created_at : string
}.

Record ChatRequest : Type := mkChatRequest {
  rq_message : string;
  include_sources : option bool
}.

(** [ChatSource]; the optional [score] is kept as its number lexeme. *)
Record ChatSource : Type := mkChatSource {
  src_content : string;
  document_id : string;
  score : option string
}.

Record ChatResponse : Type := mkChatResponse {
  rs_message : string;
  rs_sources : option (list ChatSource)
}.

(** [SSEEvent = SSESourcesEvent | SSEChunkEvent | SSEDoneEvent]. *)
Inductive SSEEvent : Type :=
| SSESources (data : list ChatSource)
| SSEChunk (data : string)
| SSEDone.

(** The JSON values that inhabit [SSEEvent], which is what the cast
    [JSON.parse(...) as SSEEvent] of [streamChat] takes for granted. *)
Definition as_ChatSource (j : json) : option ChatSource :=
  match j with
  | JObject m =>
      match Json.get "content" m, Json.get "document_id" m with
      | Some (JString c), Some (JString d) =>
          match Json.get "score" m with
          | None => Some (mkChatSource c d None)
          | Some (JNumber l) => Some (mkChatSource c d (Some l))
          | Some _ => None
          end
      | _, _ => None
      end
  | _ => None
  end.

Fixpoint as_ChatSources (js : list json) : option (list ChatSource) :=
  match js with
  | [] => Some []
  | j :: r =>
      match as_ChatSource j, as_ChatSources r with
      | Some c, Some cs => Some (c :: cs)
      | _, _ => None
      end
  end.

Definition as_SSEEvent (j : json) : option SSEEvent :=
  match j with
  | JObject m =>
      match Json.get "type" m with
      | Some (JString t) =>
          if t =? "done" then Some SSEDone
          else if t =? "chunk" then
            match Json.get "data" m with
            | Some (JString d) => Some (SSEChunk d)
            | _ => None
            end
          else if t =? "sources" then
            match Json.get "data" m with
            | Some (JArray a) =>
                match as_ChatSources a with
                | Some cs => Some (SSESources cs)
                | None => None
                end
            | _ => None
            end
          else None
      | _ => None
      end
  | _ => None
  end.

(* ================================================================== *)
(** ** [api/client.ts]: [streamChat] *)
(* ================================================================== *)

Module Api.

(** Where the promise chain of one [streamChat] call stands: waiting for
    [fetch], inside the read loop, or settled.  A settled chain is one of:
    the loop left by [break], the [catch] entered with an error, the
    [catch] entered with the rejection that [abort] causes. *)
Inductive Phase : Type :=
| Connecting
| Streaming
| Completed
| Errored
| Cancelled.

(** One call of [streamChat]: the phase and the local [buffer]. *)
Record Stream : Type := mkStream {
  phase : Phase;
  buffer : string
}.

(** An invocation of one of the two callbacks handed to [streamChat]. *)
Inductive Callback : Type :=
| OnEvent (event : json)
| OnError (error : JS.Error).

(** What the platform answers to the pending [await] of the chain.
    [ReadValue] carries the text that [decoder.decode(value, {stream: true})]
    returns for the bytes read. *)
Inductive Net : Type :=
| FetchResolved (ok : bool) (status : N) (body : bool)
| FetchRejected (e : JS.Error)
| ReadValue (text : string)
| ReadDone
| ReadRejected (e : JS.Error).

(** What can happen to a stream: an answer of the platform, or a call of
    the function that [streamChat] returned. *)
Inductive Input : Type :=
| FromNet (n : Net)
| Cancel.

(** The request [streamChat(kbId, data, ...)] issues. *)
Record Request : Type := mkRequest {
  url : string;
  body : ChatRequest
}.

Definition API_BASE : string := "http://localhost:8000".

Definition stream_request (kbId : string) (data : ChatRequest) : Request :=
  {| url := API_BASE ++ "/api/chat/" ++ kbId ++ "/stream"; body := data |}.

(** The stream right after [streamChat] returned. *)
Definition streamChat : Stream := {| phase := Connecting; buffer := "" |}.

Definition is_settled (p : Phase) : bool :=
  match p with
  | Connecting | Streaming => false
  | Completed | Errored | Cancelled => true
  end.

Section Transport.

(** [JSON.parse], [None] being a thrown [SyntaxError]. *)
Variable JSON_parse : string -> option json.

(** Whether the optional [onError] argument was passed. *)
Variable has_onError : bool.

(** The body of [for (const line of lines)].  The [try] around it also
    swallows whatever [onEvent] itself throws. *)
Definition on_line (line : string) : list Callback :=
  if JS.startsWith "data: " line then
    match JSON_parse (JS.slice 6 line) with
    | Some event => [OnEvent event]
    | None => []
    end
  else [].

(** One turn of the read loop after [done] was false: the new [buffer] and
    the callbacks made. *)
Definition on_value (buffer text : string) : string * list Callback :=
  let buffer := buffer ++ text in
  let (lines, last) := JS.pop (JS.split JS.LF buffer) in
  (JS.or_empty last, flat_map on_line lines).

(** The [.catch] handler. *)
Definition catch (error : JS.Error) : list Callback :=
  if negb (JS.name error =? "AbortError") && has_onError
  then [OnError error] else [].

Definition settle_with (error : JS.Error) (st : Stream) : Stream :=
  {| phase := if JS.name error =? "AbortError" then Cancelled else Errored;
     buffer := buffer st |}.

(** One answer of the platform.  An answer the chain is not waiting for
    (a read while [fetch] is pending, anything once the chain has settled)
    does not occur; the model leaves the stream as it is. *)
Definition step (st : Stream) (n : Net) : Stream * list Callback :=
  match phase st, n with
  | Connecting, FetchResolved ok status body =>
      if negb ok then
        let e := JS.new_Error ("HTTP " ++ JS.decimal status) in
        (settle_with e st, catch e)
      else if negb body then
        let e := JS.new_Error "No response body" in
        (settle_with e st, catch e)
      else ({| phase := Streaming; buffer := "" |}, [])
  | Connecting, FetchRejected e => (settle_with e st, catch e)
  | Streaming, ReadValue text =>
      let (b, cbs) := on_value (buffer st) text in
      ({| phase := Streaming; buffer := b |}, cbs)
  | Streaming, ReadDone => ({| phase := Completed; buffer := buffer st |}, [])
  | Streaming, ReadRejected e => (settle_with e st, catch e)
  | _, _ => (st, [])
  end.

(** [controller.abort()]: the pending [fetch] or [read] of a live chain
    rejects with [AbortError]; a settled chain has nothing pending. *)
Definition cancel (st : Stream) : Stream * list Callback :=
  if is_settled (phase st) then (st, [])
  else (settle_with JS.AbortError st, catch JS.AbortError).

Definition deliver (st : Stream) (i : Input) : Stream * list Callback :=
  match i with
  | FromNet n => step st n
  | Cancel => cancel st
  end.

Fixpoint run (st : Stream) (ins : list Input) : Stream * list Callback :=
  match ins with
  | [] => (st, [])
  | i :: r =>
      let (st1, c1) := deliver st i in
      let (st2, c2) := run st1 r in
      (st2, (c1 ++ c2)%list)
  end.

End Transport.

(** The fragments of a body, as inputs. *)
Definition reads (fs : list string) : list Input :=
  map (fun f => FromNet (ReadValue f)) fs.

End Api.

(** The concatenation of a sequence of strings. *)
Definition join (fs : list string) : string := fold_right String.append "" fs.

(** Complete lines written out, each closed by a line feed. *)
Definition unlines (ls : list string) : string :=
  join (map (fun l => l ++ JS.nl) ls).

(** Whether a text holds a line feed. *)
Fixpoint has_LF (s : string) : bool :=
  match s with
  | EmptyString => false
  | String c r => Ascii.eqb c JS.LF || has_LF r
  end.

(* ================================================================== *)
(** ** [hooks/useChat.ts] *)
(* ================================================================== *)

Module UseChat.

Record LocalMessage : Type := mkLocalMessage {
  id : string;
  role : Role;
  content : string;
  sources : option (list ChatSource);
  isStreaming : option bool
}.

(** The function [streamChat] returned, told apart by the stream it aborts. *)
Definition Handle : Type := nat.

(** The state of one [useChat] instance: the three [useState] cells and
    [abortRef.current]. *)
Record State : Type := mkState {
  messages : list LocalMessage;
  loading : bool;
  error : option string;
  abortRef : option Handle
}.

Definition initial : State :=
  {| messages := []; loading := false; error := None; abortRef := None |}.

Definition setMessages (f : list LocalMessage -> list LocalMessage) (s : State) : State :=
  {| messages := f (messages s); loading := loading s;
     error := error s; abortRef := abortRef s |}.

Definition setLoading (b : bool) (s : State) : State :=
  {| messages := messages s; loading := b;
     error := error s; abortRef := abortRef s |}.

Definition setError (e : option string) (s : State) : State :=
  {| messages := messages s; loading := loading s;
     error := e; abortRef := abortRef s |}.

Definition set_abortRef (h : option Handle) (s : State) : State :=
  {| messages := messages s; loading := loading s;
     error := error s; abortRef := h |}.

(** Calls that leave the hook. *)
Inductive Effect : Type :=
| GetChatHistory (kbId : string)
| StreamChat (rq : Api.Request) (h : Handle)
| SendMessage (kbId : string) (data : ChatRequest)
| ClearChatHistory (kbId : string)
| Abort (h : Handle).

(** A value caught by [catch (e)]: an [Error] object or something else. *)
Inductive Thrown : Type :=
| ThrownError (e : JS.Error)
| ThrownOther.

(** [!kbId] for [kbId : string | null]: [null] and the empty string. *)
Definition no_kb (kbId : option string) : bool :=
  match kbId with
  | None => true
  | Some k => k =? ""
  end.

(** [!s] for a string. *)
Definition is_empty (s : string) : bool := s =? "".

(** *** The effect on [kbId] *)

(** The body of the effect, up to the [await]. *)
Definition history_effect (kbId : option string) (s : State) : State * list Effect :=
  match kbId with
  | Some k =>
      if no_kb kbId then (setMessages (fun _ => []) s, [])
      else (s, [GetChatHistory k])
  | None => (setMessages (fun _ => []) s, [])
  end.

Definition of_history (m : ChatMessage) : LocalMessage :=
  {| id := cm_id m; role := cm_role m; content := cm_content m;
     sources := None; isStreaming := None |}.

(** [loadHistory] after [api.getChatHistory] resolved. *)
Definition loadHistory_resolved (history : list ChatMessage) (s : State) : State :=
  setMessages (fun _ => map of_history history) s.

(** [loadHistory] after it rejected: [console.error] only. *)
Definition loadHistory_rejected (s : State) : State := s.

(** *** [sendMessage] *)

(** What the two callbacks of one [sendMessage] call close over: the
    constant [assistantId] and the variable [let sources]. *)
Record Closure : Type := mkClosure {
  assistantId : string;
  let_sources : option (list ChatSource)
}.

(** The callback [(event: SSEEvent) => ...]. *)
Definition onEvent (c : Closure) (event : SSEEvent) (s : State) : Closure * State :=
  match event with
  | SSESources data =>
      ({| assistantId := assistantId c; let_sources := Some data |}, s)
  | SSEChunk data =>
      (c, setMessages
            (map (fun m =>
                    if id m =? assistantId c
                    then {| id := id m; role := role m;
                            content := content m ++ data;
                            sources := sources m;
                            isStreaming := isStreaming m |}
                    else m)) s)
  | SSEDone =>
      (c, setLoading false
            (setMessages
               (map (fun m =>
                       if id m =? assistantId c
                       then {| id := id m; role := role m;
                               content := content m;
                               sources := let_sources c;
                               isStreaming := Some false |}
                       else m)) s))
  end.

(** The callback [(err) => ...]. *)
Definition onError (err : JS.Error) (s : State) : State :=
  setLoading false (setError (Some (JS.message err)) s).

(** The events of one stream, in the order of their arrival. *)
Fixpoint onEvents (c : Closure) (events : list SSEEvent) (s : State) : Closure * State :=
  match events with
  | [] => (c, s)
  | e :: r => let (c1, s1) := onEvent c e s in onEvents c1 r s1
  end.

Definition userMsg (content : string) (now : N) : LocalMessage :=
  {| id := "user-" ++ JS.decimal now; role := user;
     content := JS.trim content; sources := None; isStreaming := None |}.

Definition assistantMsg (now : N) : LocalMessage :=
  {| id := "assistant-" ++ JS.decimal now; role := assistant;
     content := ""; sources := None; isStreaming := Some true |}.

(** [sendMessage(content, useStreaming)], up to its first [await] on the
    non-streaming path and to its end on the streaming one.  [now1] and
    [now2] are the two readings of [Date.now()], [h] is what
    [api.streamChat] returns.  The third component is the closure of the
    callbacks when a stream was started. *)
Definition sendMessage (kbId : option string) (content : string)
    (useStreaming : bool) (now1 now2 : N) (h : Handle) (s : State)
  : State * list Effect * option Closure :=
  match kbId with
  | None => (s, [], None)
  | Some k =>
      if no_kb kbId || is_empty (JS.trim content) then (s, [], None)
      else
        let s := setError None s in
        let s := setLoading true s in
        let s := setMessages (fun prev => (prev ++ [userMsg content now1])%list) s in
        let rq := {| rq_message := content; include_sources := Some true |} in
        if useStreaming then
          let s := setMessages (fun prev => (prev ++ [assistantMsg now2])%list) s in
          let s := set_abortRef (Some h) s in
          (s, [StreamChat (Api.stream_request k rq) h],
           Some {| assistantId := "assistant-" ++ JS.decimal now2;
                   let_sources := None |})
        else (s, [SendMessage k rq], None)
  end.

(** [response.sources || undefined]. *)
Definition or_undefined {A : Type} (v : option A) : option A := v.

(** The non-streaming path after [api.sendMessage] resolved. *)
Definition sendMessage_resolved (response : ChatResponse) (now : N) (s : State) : State :=
  setLoading false
    (setMessages
       (fun prev =>
          (prev ++ [{| id := "assistant-" ++ JS.decimal now; role := assistant;
                       content := rs_message response;
                       sources := or_undefined (rs_sources response);
                       isStreaming := None |}])%list) s).

(** The non-streaming path after it rejected. *)
Definition sendMessage_rejected (e : Thrown) (s : State) : State :=
  setLoading false
    (setError (Some match e with
                    | ThrownError err => JS.message err
                    | ThrownOther => "Failed to send message"
                    end) s).

(** *** [clearHistory] *)

(** Up to the [await]. *)
Definition clearHistory (kbId : option string) (s : State) : State * list Effect :=
  match kbId with
  | Some k => if no_kb kbId then (s, []) else (s, [ClearChatHistory k])
  | None => (s, [])
  end.

(** After [api.clearChatHistory] resolved. *)
Definition clearHistory_resolved (s : State) : State :=
  setMessages (fun _ => []) s.

(** After it rejected. *)
Definition clearHistory_rejected (e : Thrown) (s : State) : State :=
  setError (Some match e with
                 | ThrownError err => JS.message err
                 | ThrownOther => "Failed to clear history"
                 end) s.

(** The outcome of the call [clearHistory] awaits. *)
Inductive Settled : Type :=
| Resolved
| Rejected (e : Thrown).

Definition clearHistory_settled (o : Settled) (s : State) : State :=
  match o with
  | Resolved => clearHistory_resolved s
  | Rejected e => clearHistory_rejected e s
  end.

(** *** [stopStreaming] *)

(** Truthiness of [m.isStreaming]. *)
Definition truthy (b : option bool) : bool :=
  match b with
  | Some true => true
  | _ => false
  end.

Definition unflag (m : LocalMessage) : LocalMessage :=
  if truthy (isStreaming m)
  then {| id := id m; role := role m; content := content m;
          sources := sources m; isStreaming := Some false |}
  else m.

Definition stopStreaming (s : State) : State * list Effect :=
  match abortRef s with
  | Some h =>
      (setMessages (map unflag) (setLoading false (set_abortRef None s)),
       [Abort h])
  | None => (s, [])
  end.

End UseChat.

(* ================================================================== *)
(** ** [components/Chat.tsx]: [handleSubmit] *)
(* ================================================================== *)

Module Chat.

(** The component's [input] cell next to the hook it uses. *)
Record State : Type := mkState {
  input : string;
  chat : UseChat.State
}.

(** [handleSubmit]; the component calls [useChat(kbId)] with its own
    [kbId : string] and [sendMessage(input)] with streaming on. *)
Definition handleSubmit (kbId : string) (now1 now2 : N) (h : UseChat.Handle)
    (s : State) : State * list UseChat.Effect :=
  if UseChat.is_empty (JS.trim (input s)) || UseChat.loading (chat s) then (s, [])
  else
    let '(c, effs, _) :=
      UseChat.sendMessage (Some kbId) (input s) true now1 now2 h (chat s) in
    ({| input := ""; chat := c |}, effs).

End Chat.

(* ================================================================== *)
(** ** Notions used to state the properties *)
(* ================================================================== *)

(** The complete lines of a text, and what follows its last line feed. *)
Definition lines_of (s : string) : list string := removelast (JS.split JS.LF s).
Definition rest_of (s : string) : string := last (JS.split JS.LF s) "".

(** The text of the chunk frames of a sequence of frames, in order. *)
Fixpoint chunk_text (frames : list SSEEvent) : string :=
  match frames with
  | [] => ""
  | SSEChunk data :: r => data ++ chunk_text r
  | _ :: r => chunk_text r
  end.

(** The value of [let sources] after a sequence of frames, from [v]. *)
Fixpoint buffered (v : option (list ChatSource)) (frames : list SSEEvent)
  : option (list ChatSource) :=
  match frames with
  | [] => v
  | SSESources data :: r => buffered (Some data) r
  | _ :: r => buffered v r
  end.

Definition is_done (e : SSEEvent) : bool :=
  match e with
  | SSEDone => true
  | _ => false
  end.

(** The hook after its [kbId] changed to [kbId'] and, when a knowledge base
    is selected, after the history request resolved with [history]. *)
Definition switched (kbId' : option string) (history : list ChatMessage)
    (s : UseChat.State) : UseChat.State :=
  let (s1, effects) := UseChat.history_effect kbId' s in
  match effects with
  | [] => s1
  | _ :: _ => UseChat.loadHistory_resolved history s1
  end.

(** What a chunk frame with the text [text] makes of a message, for the
    stream whose assistant message is [aid]; and what the done frame makes
    of it when [let sources] holds [v]. *)
Definition append_to (aid text : string) (m : UseChat.LocalMessage)
  : UseChat.LocalMessage :=
  if UseChat.id m =? aid
  then {| UseChat.id := UseChat.id m; UseChat.role := UseChat.role m;
          UseChat.content := UseChat.content m ++ text;
          UseChat.sources := UseChat.sources m;
          UseChat.isStreaming := UseChat.isStreaming m |}
  else m.

Definition finish (aid : string) (v : option (list ChatSource))
    (m : UseChat.LocalMessage) : UseChat.LocalMessage :=
  if UseChat.id m =? aid
  then {| UseChat.id := UseChat.id m; UseChat.role := UseChat.role m;
          UseChat.content := UseChat.content m;
          UseChat.sources := v;
          UseChat.isStreaming := Some false |}
  else m.

(** How [stopStreaming] relates a message to what it becomes. *)
Definition frozen (m m' : UseChat.LocalMessage) : Prop :=
  UseChat.id m' = UseChat.id m
  /\ UseChat.role m' = UseChat.role m
  /\ UseChat.content m' = UseChat.content m
  /\ UseChat.sources m' = UseChat.sources m
  /\ UseChat.isStreaming m' <> Some true
  /\ (UseChat.isStreaming m = Some true -> UseChat.isStreaming m' = Some false)
  /\ (UseChat.isStreaming m <> Some true -> m' = m).

(** The events among the callbacks of a stream that inhabit [SSEEvent]. *)
Fixpoint typed_events (cbs : list Api.Callback) : list SSEEvent :=
  match cbs with
  | [] => []
  | Api.OnEvent j :: r =>
      match as_SSEEvent j with
      | Some e => e :: typed_events r
      | None => typed_events r
      end
  | Api.OnError _ :: r => typed_events r
  end.

(** *** The texts of the scenarios *)

Module Scenario.

Definition quoted (s : string) : string := JS.dq ++ s ++ JS.dq.

(** [{"type":"done"}] *)
Definition done_payload : string := "{" ++ quoted "type" ++ ":" ++ quoted "done" ++ "}".

Definition done_line : string := "data: " ++ done_payload.

Definition done_event : json := JObject [("type", JString "done")].

Definition chunk_event (text : string) : json :=
  JObject [("type", JString "chunk"); ("data", JString text)].

(** A chunk frame for ["Hello"], cut inside its text. *)
Definition hello_1 : string :=
  "data: {" ++ quoted "type" ++ ":" ++ quoted "chunk" ++ ","
            ++ quoted "data" ++ ":" ++ JS.dq ++ "Hel".

Definition hello_2 : string :=
  "lo" ++ JS.dq ++ "}" ++ JS.nl ++ done_line ++ JS.nl.

(** [data: {"type":"chunk","data":"<text>"}] *)
Definition chunk_line (text : string) : string :=
  "data: {" ++ quoted "type" ++ ":" ++ quoted "chunk" ++ ","
            ++ quoted "data" ++ ":" ++ quoted text ++ "}".

Definition ok_response : Api.Input := Api.FromNet (Api.FetchResolved true 200 true).

Definition end_of_body : Api.Input := Api.FromNet Api.ReadDone.

(** The hook after [sendMessage("What is X?")] for the knowledge base
    ["kb"], at time 1, the stream being number 0. *)
Definition asked : UseChat.State * list UseChat.Effect * option UseChat.Closure :=
  UseChat.sendMessage (Some "kb") "What is X?" true 1 1 0 UseChat.initial.

Definition asked_state : UseChat.State := fst (fst asked).

Definition asked_closure : UseChat.Closure :=
  {| UseChat.assistantId := "assistant-1"; UseChat.let_sources := None |}.

(** A persisted message that carries the identifier of the assistant
    message of [asked]. *)
Definition colliding_history : list ChatMessage :=
  [ {| cm_id := "assistant-1"; cm_knowledge_base_id := "kb2";
       cm_role := assistant; cm_content := "old answer";
       cm_sources := None; cm_created_at := "2025-01-01T00:00:00" |} ].

Definition plain_history : list ChatMessage :=
  [ {| cm_id := "7f3c"; cm_knowledge_base_id := "kb2";
       cm_role := assistant; cm_content := "old answer";
       cm_sources := None; cm_created_at := "2025-01-01T00:00:00" |} ].

End Scenario.

(* ================================================================== *)
(** ** [hooks/useQuiz.ts], with the parts of [types/index.ts] it uses *)
(* ================================================================== *)

From Stdlib Require Import ZArith.

Inductive QuestionType : Type := multiple_choice | true_false | short_answer.

Record QuizQuestion : Type := mkQuizQuestion {
  qq_id : string;
  qq_quiz_id : string;
  qq_question : string;
  qq_question_type : QuestionType;
  qq_options : option (list string);
  qq_correct_answer : string;
  qq_explanation : option string;
  qq_difficulty : string;
  qq_created_at : string
}.

Record Quiz : Type := mkQuiz {
  qz_id : string;
  qz_knowledge_base_id : string;
  qz_title : string;
  qz_description : option string;
  qz_questions : list QuizQuestion;
  qz_created_at : string
}.

Record QuizGenerateRequest : Type := mkQuizGenerateRequest {
  num_questions : option Z;
  gr_difficulty : option string;
  question_types : option (list string)
}.

Module UseQuiz.

(** [Record<string, string>]: the own properties of the object, each key
    once.  [lookup] is the property access [answers[k]] as far as the
    sources use it, which is to compare it with a string. *)
Definition Answers : Type := list (string * string).

Fixpoint lookup (k : string) (a : Answers) : option string :=
  match a with
  | [] => None
  | (k', v) :: r => if k' =? k then Some v else lookup k r
  end.

(** [{ ...a, [k]: v }]: the property is replaced where it stands, or added. *)
Fixpoint assign (k v : string) (a : Answers) : Answers :=
  match a with
  | [] => [(k, v)]
  | (k', v') :: r => if k' =? k then (k, v) :: r else (k', v') :: assign k v r
  end.

(** [Object.keys(a)]. *)
Definition keys (a : Answers) : list string := map fst a.

Record QuizState : Type := mkQuizState {
  quiz : option Quiz;
  currentIndex : Z;
  answers : Answers;
  submitted : bool
}.

(** The four [useState] cells of one [useQuiz] instance. *)
Record State : Type := mkState {
  quizzes : list Quiz;
  state : QuizState;
  loading : bool;
  error : option string
}.

Definition no_quiz : QuizState :=
  {| quiz := None; currentIndex := 0; answers := []; submitted := false |}.

Definition initial : State :=
  {| quizzes := []; state := no_quiz; loading := false; error := None |}.

Definition setQuizzes (f : list Quiz -> list Quiz) (s : State) : State :=
  {| quizzes := f (quizzes s); state := state s;
     loading := loading s; error := error s |}.

Definition setState (f : QuizState -> QuizState) (s : State) : State :=
  {| quizzes := quizzes s; state := f (state s);
     loading := loading s; error := error s |}.

Definition setLoading (b : bool) (s : State) : State :=
  {| quizzes := quizzes s; state := state s; loading := b; error := error s |}.

Definition setError (e : option string) (s : State) : State :=
  {| quizzes := quizzes s; state := state s; loading := loading s; error := e |}.

Inductive Effect : Type :=
| GetQuizzes (kbId : string)
| GenerateQuiz (kbId : string) (options : QuizGenerateRequest)
| DeleteQuiz (kbId quizId : string).

(** [e instanceof Error ? e.message : fallback]. *)
Definition message_or (fallback : string) (e : UseChat.Thrown) : string :=
  match e with
  | UseChat.ThrownError err => JS.message err
  | UseChat.ThrownOther => fallback
  end.

(** *** [fetchQuizzes] *)

Definition fetchQuizzes (kbId : option string) (s : State) : State * list Effect :=
  match kbId with
  | Some k =>
      if UseChat.no_kb kbId then (s, [])
      else (setLoading true s, [GetQuizzes k])
  | None => (s, [])
  end.

Definition fetchQuizzes_resolved (data : list Quiz) (s : State) : State :=
  setLoading false (setQuizzes (fun _ => data) s).

Definition fetchQuizzes_rejected (e : UseChat.Thrown) (s : State) : State :=
  setLoading false (setError (Some (message_or "Failed to fetch quizzes" e)) s).

(** *** [generateQuiz] *)

Definition generateQuiz (kbId : option string) (options : QuizGenerateRequest)
    (s : State) : State * list Effect :=
  match kbId with
  | Some k =>
      if UseChat.no_kb kbId then (s, [])
      else (setError None (setLoading true s), [GenerateQuiz k options])
  | None => (s, [])
  end.

(** After [api.generateQuiz] resolved: the state, and what the call returns. *)
Definition generateQuiz_resolved (q : Quiz) (s : State) : State * option Quiz :=
  (setLoading false (setQuizzes (fun prev => q :: prev) s), Some q).

Definition generateQuiz_rejected (e : UseChat.Thrown) (s : State)
  : State * option Quiz :=
  (setLoading false (setError (Some (message_or "Failed to generate quiz" e)) s),
   None).

(** *** The quiz in progress *)

Definition startQuiz (q : Quiz) (s : State) : State :=
  setState (fun _ => {| quiz := Some q; currentIndex := 0;
                        answers := []; submitted := false |}) s.

Definition answerQuestion (questionId answer : string) (s : State) : State :=
  setState (fun prev => {| quiz := quiz prev; currentIndex := currentIndex prev;
                           answers := assign questionId answer (answers prev);
                           submitted := submitted prev |}) s.

Definition nextQuestion (s : State) : State :=
  setState (fun prev =>
              match quiz prev with
              | None => prev
              | Some q =>
                  let maxIndex := (Z.of_nat (length (qz_questions q)) - 1)%Z in
                  {| quiz := quiz prev;
                     currentIndex := Z.min (currentIndex prev + 1) maxIndex;
                     answers := answers prev; submitted := submitted prev |}
              end) s.

Definition prevQuestion (s : State) : State :=
  setState (fun prev => {| quiz := quiz prev;
                           currentIndex := Z.max (currentIndex prev - 1) 0;
                           answers := answers prev;
                           submitted := submitted prev |}) s.

Definition submitQuiz (s : State) : State :=
  setState (fun prev => {| quiz := quiz prev; currentIndex := currentIndex prev;
                           answers := answers prev; submitted := true |}) s.

Definition resetQuiz (s : State) : State := setState (fun _ => no_quiz) s.

(** *** [deleteQuiz] *)

Definition deleteQuiz (kbId : option string) (quizId : string) (s : State)
  : State * list Effect :=
  match kbId with
  | Some k => if UseChat.no_kb kbId then (s, []) else (s, [DeleteQuiz k quizId])
  | None => (s, [])
  end.

(** After [api.deleteQuiz] resolved.  [captured] is [state.quiz?.id] as the
    callback closed over it when it was called. *)
Definition deleteQuiz_resolved (captured : option string) (quizId : string)
    (s : State) : State :=
  let s := setQuizzes (filter (fun q => negb (qz_id q =? quizId))) s in
  match captured with
  | Some i => if i =? quizId then resetQuiz s else s
  | None => s
  end.

Definition deleteQuiz_rejected (e : UseChat.Thrown) (s : State) : State :=
  setError (Some (message_or "Failed to delete quiz" e)) s.

(** *** [getScore] and [currentQuestion] *)

(** The [for] loop of [getScore]. *)
Definition count_correct (a : Answers) (questions : list QuizQuestion) : Z :=
  fold_left
    (fun correct question =>
       match lookup (qq_id question) a with
       | Some v => if v =? qq_correct_answer question then (correct + 1)%Z else correct
       | None => correct
       end)
    questions 0%Z.

(** The result of [getScore] without its [percentage], which is the
    floating-point value [Math.round((correct / total) * 100)]. *)
Record Score : Type := mkScore { correct : Z; total : Z }.

Definition getScore (s : State) : option Score :=
  match quiz (state s) with
  | None => None
  | Some q =>
      if negb (submitted (state s)) then None
      else Some {| correct := count_correct (answers (state s)) (qz_questions q);
                   total := Z.of_nat (length (qz_questions q)) |}
  end.

(** [state.quiz?.questions[state.currentIndex] || null]. *)
Definition currentQuestion (s : State) : option QuizQuestion :=
  match quiz (state s) with
  | None => None
  | Some q =>
      if (currentIndex (state s) <? 0)%Z then None
      else nth_error (qz_questions q) (Z.to_nat (currentIndex (state s)))
  end.

(** The two navigation buttons, and a sequence of presses. *)
Inductive Nav : Type := Next | Prev.

Definition press (n : Nav) (s : State) : State :=
  match n with
  | Next => nextQuestion s
  | Prev => prevQuestion s
  end.

Definition presses (ns : list Nav) (s : State) : State :=
  fold_left (fun s n => press n s) ns s.

(** [answerQuestion] for each question of a list, [pick] giving the answer. *)
Definition answer_all (pick : QuizQuestion -> string) (qs : list QuizQuestion)
    (s : State) : State :=
  fold_left (fun s q => answerQuestion (qq_id q) (pick q) s) qs s.

End UseQuiz.

(* ================================================================== *)
(** ** [components/QuizView.tsx] and [pages/Quiz.tsx] *)
(* ================================================================== *)

Module QuizView.

(** [disabled] of the submit button:
    [Object.keys(answers).length < totalQuestions]. *)
Definition submit_disabled (q : Quiz) (a : UseQuiz.Answers) : bool :=
  (length (UseQuiz.keys a) <? length (qz_questions q))%nat.

(** [isLastQuestion]. *)
Definition isLastQuestion (q : Quiz) (currentIndex : Z) : bool :=
  (currentIndex =? Z.of_nat (length (qz_questions q)) - 1)%Z.

End QuizView.

Module QuizPage.

(** [handleGenerate] after [generateQuiz] settled: [startQuiz] when it
    returned a quiz. *)
Definition handleGenerate_settled (r : UseQuiz.State * option Quiz) : UseQuiz.State :=
  match snd r with
  | Some newQuiz => UseQuiz.startQuiz newQuiz (fst r)
  | None => fst r
  end.

End QuizPage.

(* ================================================================== *)
(** ** [components/FileUpload.tsx] *)
(* ================================================================== *)

Module FileUpload.

(** [s.toLowerCase()] on code units below 256: the letters [A]-[Z] and the
    capital letters of Latin-1, which are 192 to 222 without 215. *)
Definition lower (c : ascii) : ascii :=
  let n := nat_of_ascii c in
  if (((65 <=? n) && (n <=? 90))
      || ((192 <=? n) && (n <=? 222) && negb (n =? 215)))%nat
  then ascii_of_nat (n + 32) else c.

Fixpoint toLowerCase (s : string) : string :=
  match s with
  | EmptyString => ""
  | String c r => String (lower c) (toLowerCase r)
  end.

(** [a.includes(x)] on an array of strings. *)
Definition includes (a : list string) (x : string) : bool :=
  existsb (fun y => y =? x) a.

Definition ACCEPTED_TYPES : list string :=
  [ "application/pdf"; "text/plain"; "text/markdown";
    "application/vnd.openxmlformats-officedocument.wordprocessingml.document" ].

Definition ACCEPTED_EXTENSIONS : list string := [".pdf"; ".md"; ".txt"; ".docx"].

(** A [File], as far as the component looks at it. *)
Record File : Type := mkFile { name : string; type : string }.

(** ['.' + file.name.split('.').pop()?.toLowerCase()]. *)
Definition extension (file : File) : string :=
  "." ++ match snd (JS.pop (JS.split "." (name file))) with
         | Some p => toLowerCase p
         | None => "undefined"
         end.

Definition validateFile (file : File) : bool :=
  includes ACCEPTED_TYPES (type file)
  || includes ACCEPTED_EXTENSIONS (extension file).

Record State : Type := mkState {
  isDragging : bool;
  uploading : bool;
  progress : Z
}.

Definition initial : State :=
  {| isDragging := false; uploading := false; progress := 0 |}.

Inductive Effect : Type :=
| Alert (text : string)
| OnUpload (file : File).

(** [handleFile], up to its [await]. *)
Definition handleFile (file : File) (s : State) : State * list Effect :=
  if negb (validateFile file) then
    (s, [Alert "Invalid file type. Please upload PDF, MD, TXT, or DOCX files."])
  else
    ({| isDragging := isDragging s; uploading := true; progress := 0 |},
     [OnUpload file]).

(** The [finally] of [handleFile], after [onUpload] settled either way. *)
Definition handleFile_settled (s : State) : State :=
  {| isDragging := isDragging s; uploading := false; progress := 0 |}.

Definition setIsDragging (b : bool) (s : State) : State :=
  {| isDragging := b; uploading := uploading s; progress := progress s |}.

(** [handleDrop], [e.dataTransfer.files[0]] being [file]. *)
Definition handleDrop (file : option File) (s : State) : State * list Effect :=
  let s := setIsDragging false s in
  match file with
  | Some f => handleFile f s
  | None => (s, [])
  end.

Definition handleDragOver (s : State) : State := setIsDragging true s.

Definition handleDragLeave (s : State) : State := setIsDragging false s.

(** [handleChange], [e.target.files?.[0]] being [file]. *)
Definition handleChange (file : option File) (s : State) : State * list Effect :=
  match file with
  | Some f => handleFile f s
  | None => (s, [])
  end.

(** What happens to the component. *)
Inductive Event : Type :=
| Drop (file : option File)
| DragOver
| DragLeave
| Change (file : option File)
| UploadSettled.

Definition handle (e : Event) (s : State) : State * list Effect :=
  match e with
  | Drop f => handleDrop f s
  | DragOver => (handleDragOver s, [])
  | DragLeave => (handleDragLeave s, [])
  | Change f => handleChange f s
  | UploadSettled => (handleFile_settled s, [])
  end.

Fixpoint run (es : list Event) (s : State) : State * list Effect :=
  match es with
  | [] => (s, [])
  | e :: r =>
      let (s1, x1) := handle e s in
      let (s2, x2) := run r s1 in
      (s2, (x1 ++ x2)%list)
  end.

End FileUpload.

(* ================================================================== *)
(** ** [components/DocumentList.tsx]: [formatFileSize] *)
(* ================================================================== *)

Module DocumentList.

(** [`${n}`] for an integer [n]. *)
Definition decimalZ (n : Z) : string := NilEmpty.string_of_int (Z.to_int n).

(** [(num / den).toFixed(1)] for [0 <= num] and [den] a power of two, so
    that the quotient is a floating-point number without rounding: the
    integer [n] nearest to ten times the quotient, the larger one of two,
    written with its last digit after the point. *)
Definition toFixed1 (num den : Z) : string :=
  let n := ((10 * num + den / 2) / den)%Z in
  decimalZ (n / 10) ++ "." ++ decimalZ (n mod 10).

(** [formatFileSize(bytes)] for [bytes] an integer below 2^53 or [null]. *)
Definition formatFileSize (bytes : option Z) : string :=
  match bytes with
  | None => "Unknown size"
  | Some b =>
      if (b =? 0)%Z then "Unknown size"
      else if (b <? 1024)%Z then decimalZ b ++ " B"
      else if (b <? 1024 * 1024)%Z then toFixed1 b 1024 ++ " KB"
      else toFixed1 b (1024 * 1024) ++ " MB"
  end.

End DocumentList.

(* ================================================================== *)
(** ** Further notions used to state properties *)
(* ================================================================== *)

(** Whether a callback is a call of [onEvent]. *)
Definition is_event (cb : Api.Callback) : bool :=
  match cb with
  | Api.OnEvent _ => true
  | Api.OnError _ => false
  end.

(** What the frames of the stream with the assistant message [aid] make of
    a message [m]: it keeps its identifier and role; with another
    identifier it stays as it is; with this one, its content grows by the
    chunk texts, it is no longer flagged once a done frame was among them,
    and it keeps its flag and sources when none was. *)
Definition streamed (aid : string) (frames : list SSEEvent)
    (m m' : UseChat.LocalMessage) : Prop :=
  UseChat.id m' = UseChat.id m
  /\ UseChat.role m' = UseChat.role m
  /\ (UseChat.id m <> aid -> m' = m)
  /\ (UseChat.id m = aid ->
      UseChat.content m' = UseChat.content m ++ chunk_text frames
      /\ (existsb is_done frames = true -> UseChat.isStreaming m' = Some false)
      /\ (existsb is_done frames = false ->
          UseChat.isStreaming m' = UseChat.isStreaming m
          /\ UseChat.sources m' = UseChat.sources m)).

(** Whether a text holds a dot. *)
Fixpoint has_dot (s : string) : bool :=
  match s with
  | EmptyString => false
  | String c r => Ascii.eqb c "." || has_dot r
  end.

(** Whether the answer given to a question is the correct one. *)
Definition is_right (a : UseQuiz.Answers) (q : QuizQuestion) : bool :=
  match UseQuiz.lookup (qq_id q) a with
  | Some v => v =? qq_correct_answer q
  | None => false
  end.

(** *** Sample values *)

Module Sample.

Definition question (i answer : string) : QuizQuestion :=
  {| qq_id := i; qq_quiz_id := "quiz-1"; qq_question := "?";
     qq_question_type := true_false; qq_options := None;
     qq_correct_answer := answer; qq_explanation := None;
     qq_difficulty := "medium"; qq_created_at := "2025-01-01T00:00:00" |}.

Definition quiz3 : Quiz :=
  {| qz_id := "quiz-1"; qz_knowledge_base_id := "kb"; qz_title := "Sample";
     qz_description := None;
     qz_questions := [question "q1" "True"; question "q2" "False";
                      question "q3" "True"];
     qz_created_at := "2025-01-01T00:00:00" |}.

Definition started : UseQuiz.State := UseQuiz.startQuiz quiz3 UseQuiz.initial.

Definition network_error : JS.Error :=
  {| JS.name := "TypeError"; JS.message := "Failed to fetch" |}.

Definition answer : ChatResponse :=
  {| rs_message := "X is Y"; rs_sources := None |}.

End Sample.

(* ================================================================== *)
(** ** [hooks/useKnowledgeBases.ts] and [App.tsx] *)
(* ================================================================== *)

Record KnowledgeBase : Type := mkKnowledgeBase {
  kb_id : string;
  kb_name : string;
  kb_description : option string;
  kb_created_at : string;
  kb_updated_at : string
}.

Module UseKnowledgeBases.

Record State : Type := mkState {
  knowledgeBases : list KnowledgeBase;
  loading : bool;
  error : option string
}.

Definition initial : State :=
  {| knowledgeBases := []; loading := true; error := None |}.

Definition setKnowledgeBases (f : list KnowledgeBase -> list KnowledgeBase)
    (s : State) : State :=
  {| knowledgeBases := f (knowledgeBases s); loading := loading s; error := error s |}.

(** [fetchKnowledgeBases], up to its [await]. *)
Definition fetchKnowledgeBases (s : State) : State :=
  {| knowledgeBases := knowledgeBases s; loading := true; error := None |}.

Definition fetchKnowledgeBases_resolved (data : list KnowledgeBase) (s : State) : State :=
  {| knowledgeBases := data; loading := false; error := error s |}.

Definition fetchKnowledgeBases_rejected (e : UseChat.Thrown) (s : State) : State :=
  {| knowledgeBases := knowledgeBases s; loading := false;
     error := Some (UseQuiz.message_or "Failed to fetch knowledge bases" e) |}.

(** The three calls after their request resolved; a rejection is passed on
    to the caller and leaves the state as it is. *)
Definition createKnowledgeBase_resolved (kb : KnowledgeBase) (s : State) : State :=
  setKnowledgeBases (fun prev => kb :: prev) s.

Definition updateKnowledgeBase_resolved (i : string) (kb : KnowledgeBase)
    (s : State) : State :=
  setKnowledgeBases (map (fun k => if kb_id k =? i then kb else k)) s.

Definition deleteKnowledgeBase_resolved (i : string) (s : State) : State :=
  setKnowledgeBases (filter (fun k => negb (kb_id k =? i))) s.

End UseKnowledgeBases.

Module App.

(** The three [useState] cells of [App] and the hook it uses. *)
Record State : Type := mkState {
  selectedKbId : option string;
  showCreateModal : bool;
  connected : option bool;
  kbs : UseKnowledgeBases.State
}.

(** [knowledgeBases.find((kb) => kb.id === selectedKbId)]. *)
Definition selectedKb (s : State) : option KnowledgeBase :=
  find (fun kb => match selectedKbId s with
                  | Some i => kb_id kb =? i
                  | None => false
                  end)
       (UseKnowledgeBases.knowledgeBases (kbs s)).

(** [handleSubmitCreate] after [createKnowledgeBase] resolved with [kb]. *)
Definition handleSubmitCreate_resolved (kb : KnowledgeBase) (s : State) : State :=
  {| selectedKbId := Some (kb_id kb); showCreateModal := false;
     connected := connected s;
     kbs := UseKnowledgeBases.createKnowledgeBase_resolved kb (kbs s) |}.

(** [handleDeleteKb(id)] after [deleteKnowledgeBase] resolved.  [captured]
    is [selectedKbId] as the handler closed over it. *)
Definition handleDeleteKb_resolved (captured : option string) (i : string)
    (s : State) : State :=
  {| selectedKbId :=
       match captured with
       | Some c => if c =? i then None else selectedKbId s
       | None => selectedKbId s
       end;
     showCreateModal := showCreateModal s;
     connected := connected s;
     kbs := UseKnowledgeBases.deleteKnowledgeBase_resolved i (kbs s) |}.

End App.

(** [handleSubmit] of [CreateKbModal]: what is passed to [onSubmit], if
    anything. *)
Definition CreateKbModal_handleSubmit (name description : string)
  : option (string * string) :=
  if UseChat.is_empty (JS.trim name) then None
  else Some (JS.trim name, JS.trim description).

(* ================================================================== *)
(** ** Facts about strings and about [split] *)
(* ================================================================== *)

Module Text.

Lemma append_nil_r (s : string) : s ++ "" = s.
Proof. induction s as [|c s IH]; simpl; [reflexivity | now rewrite IH]. Qed.

Lemma append_assoc (a b c : string) : (a ++ b) ++ c = a ++ (b ++ c).
Proof. induction a as [|x a IH]; simpl; [reflexivity | now rewrite IH]. Qed.

Lemma has_LF_append (a b : string) :
  has_LF (a ++ b) = has_LF a || has_LF b.
Proof.
  induction a as [|x a IH]; simpl; [reflexivity|].
  rewrite IH. now rewrite orb_assoc.
Qed.

Lemma join_app (xs ys : list string) :
  join (xs ++ ys)%list = join xs ++ join ys.
Proof.
  induction xs as [|x xs IH]; simpl; [reflexivity|].
  unfold join in *. simpl. rewrite IH. now rewrite append_assoc.
Qed.

Lemma split_not_nil (sep : ascii) (s : string) : JS.split sep s <> [].
Proof.
  destruct s as [|c r]; simpl; [discriminate|].
  destruct (Ascii.eqb c sep); [discriminate|].
  destruct (JS.split sep r); discriminate.
Qed.

Lemma last_cons_nonempty {A : Type} (x : A) (l : list A) (d : A) :
  l <> [] -> last (x :: l) d = last l d.
Proof. destruct l; [congruence | reflexivity]. Qed.

Lemma last_default {A : Type} (l : list A) (d e : A) :
  l <> [] -> last l d = last l e.
Proof.
  induction l as [|x l IH]; [congruence|].
  intros _. destruct l as [|y l]; [reflexivity|].
  change (last (y :: l) d = last (y :: l) e). apply IH. discriminate.
Qed.

Lemma last_app_nonempty {A : Type} (l1 l2 : list A) (d : A) :
  l2 <> [] -> last (l1 ++ l2) d = last l2 d.
Proof.
  intros H. induction l1 as [|x l1 IH]; [reflexivity|].
  simpl app. rewrite last_cons_nonempty; [exact IH|].
  destruct l1; simpl; [exact H | discriminate].
Qed.

Lemma pop_split (s : string) :
  JS.pop (JS.split JS.LF s) = (lines_of s, Some (rest_of s)).
Proof.
  unfold lines_of, rest_of, JS.pop.
  pose proof (split_not_nil JS.LF s) as H.
  destruct (JS.split JS.LF s) as [|x r]; [congruence|].
  f_equal. f_equal.
  destruct r as [|y r]; [reflexivity|].
  rewrite (last_cons_nonempty x (y :: r) "") by discriminate.
  apply last_default. discriminate.
Qed.

(** Splitting a concatenation: the complete lines of the first part, then
    the split of its unfinished rest followed by the second part. *)
Lemma split_app (a b : string) :
  JS.split JS.LF (a ++ b) =
  (lines_of a ++ JS.split JS.LF (rest_of a ++ b))%list.
Proof.
  unfold lines_of, rest_of.
  induction a as [|c a IH]; [reflexivity|].
  pose proof (split_not_nil JS.LF a) as Ha.
  simpl. destruct (Ascii.eqb c JS.LF) eqn:Hc.
  - rewrite IH.
    rewrite last_cons_nonempty by exact Ha.
    destruct (JS.split JS.LF a) as [|p ps] eqn:E; [congruence|].
    reflexivity.
  - rewrite IH.
    destruct (JS.split JS.LF a) as [|p ps] eqn:E; [congruence|].
    destruct ps as [|p2 ps].
    + simpl. rewrite Hc. reflexivity.
    + rewrite (last_cons_nonempty p (p2 :: ps)) by discriminate.
      rewrite (last_cons_nonempty (String c p) (p2 :: ps)) by discriminate.
      reflexivity.
Qed.

Lemma lines_of_app (a b : string) :
  lines_of (a ++ b) = (lines_of a ++ lines_of (rest_of a ++ b))%list.
Proof.
  unfold lines_of at 1. rewrite split_app.
  rewrite removelast_app by apply split_not_nil. reflexivity.
Qed.

Lemma rest_of_app (a b : string) :
  rest_of (a ++ b) = rest_of (rest_of a ++ b).
Proof.
  unfold rest_of at 1. rewrite split_app.
  rewrite last_app_nonempty by apply split_not_nil. reflexivity.
Qed.

Lemma split_LF_free (s : string) :
  has_LF s = false -> JS.split JS.LF s = [s].
Proof.
  induction s as [|c s IH]; [reflexivity|].
  simpl. intros H. apply orb_false_iff in H as [Hc Hs].
  rewrite Hc, (IH Hs). reflexivity.
Qed.

Lemma lines_of_LF_free (s : string) : has_LF s = false -> lines_of s = [].
Proof. intros H. unfold lines_of. now rewrite split_LF_free. Qed.

Lemma rest_of_LF_free (s : string) : has_LF s = false -> rest_of s = s.
Proof. intros H. unfold rest_of. now rewrite split_LF_free. Qed.

Lemma split_pieces_LF_free (s : string) :
  Forall (fun p => has_LF p = false) (JS.split JS.LF s).
Proof.
  induction s as [|c s IH]; simpl.
  - repeat constructor.
  - destruct (Ascii.eqb c JS.LF) eqn:Hc.
    + constructor; [reflexivity | exact IH].
    + destruct (JS.split JS.LF s) as [|p ps]; [repeat constructor; simpl; now rewrite Hc|].
      inversion IH; subst. constructor; [|assumption].
      simpl. rewrite Hc. assumption.
Qed.

Lemma rest_of_has_no_LF (s : string) : has_LF (rest_of s) = false.
Proof.
  unfold rest_of.
  pose proof (split_pieces_LF_free s) as H.
  pose proof (split_not_nil JS.LF s) as Hn.
  induction H as [|x l Hx Hl IH]; [congruence|].
  destruct l as [|y l]; [exact Hx|].
  rewrite last_cons_nonempty by discriminate. apply IH. discriminate.
Qed.

Lemma split_line (l t : string) :
  has_LF l = false ->
  JS.split JS.LF (l ++ JS.nl ++ t) = l :: JS.split JS.LF t.
Proof.
  induction l as [|c l IH]; intros H.
  - reflexivity.
  - simpl in H. apply orb_false_iff in H as [Hc Hl].
    simpl. rewrite Hc.
    change (String JS.LF t) with (JS.nl ++ t).
    now rewrite (IH Hl).
Qed.

Lemma unlines_cons (l : string) (ls : list string) :
  unlines (l :: ls) = l ++ JS.nl ++ unlines ls.
Proof. unfold unlines, join. simpl. now rewrite append_assoc. Qed.

(** Lines written out with their line feeds, then an unfinished rest, split
    back into exactly these lines and that rest. *)
Lemma split_unlines (ls : list string) (rest : string) :
  Forall (fun l => has_LF l = false) ls ->
  has_LF rest = false ->
  JS.split JS.LF (unlines ls ++ rest) = (ls ++ [rest])%list.
Proof.
  intros Hls Hrest. induction Hls as [|l ls Hl _ IH].
  - simpl. now apply split_LF_free.
  - rewrite unlines_cons, !append_assoc.
    rewrite (split_line l _ Hl), IH. reflexivity.
Qed.

End Text.

(* ================================================================== *)
(** ** The stream transport *)
(* ================================================================== *)

Module StreamFacts.

Import Api Text.

Section Generic.

Variable JSON_parse : string -> option json.
Variable has_onError : bool.

Local Abbreviation on_line := (Api.on_line JSON_parse).
Local Abbreviation step := (Api.step JSON_parse has_onError).
Local Abbreviation cancel := (Api.cancel has_onError).
Local Abbreviation catch := (Api.catch has_onError).
Local Abbreviation deliver := (Api.deliver JSON_parse has_onError).
Local Abbreviation run := (Api.run JSON_parse has_onError).

Lemma step_read (b t : string) :
  step (mkStream Streaming b) (ReadValue t) =
  (mkStream Streaming (rest_of (b ++ t)), flat_map on_line (lines_of (b ++ t))).
Proof.
  unfold Api.step. simpl. unfold on_value. now rewrite pop_split.
Qed.

Lemma run_app (st : Stream) (xs ys : list Input) :
  run st (xs ++ ys) =
  let (s1, c1) := run st xs in
  let (s2, c2) := run s1 ys in (s2, (c1 ++ c2)%list).
Proof.
  revert st. induction xs as [|x xs IH]; intros st; simpl.
  - destruct (run st ys); reflexivity.
  - destruct (deliver st x) as [s1 c1]. rewrite IH.
    destruct (run s1 xs) as [s2 c2]. destruct (run s2 ys) as [s3 c3].
    now rewrite app_assoc.
Qed.

Lemma catch_AbortError : catch JS.AbortError = [].
Proof. reflexivity. Qed.

(** A settled chain has no pending [await]: nothing reaches it any more. *)
Lemma settled_deliver (st : Stream) (i : Input) :
  is_settled (phase st) = true -> deliver st i = (st, []).
Proof.
  intros H. destruct st as [p b]. simpl in H.
  destruct i as [n|]; simpl.
  - unfold Api.step. simpl. destruct p; try discriminate; destruct n; reflexivity.
  - unfold Api.cancel. simpl. now rewrite H.
Qed.

Lemma settled_run (st : Stream) (ins : list Input) :
  is_settled (phase st) = true -> run st ins = (st, []).
Proof.
  intros H. induction ins as [|i ins IH]; simpl; [reflexivity|].
  rewrite (settled_deliver st i H), IH. reflexivity.
Qed.

Lemma cancel_settles (st : Stream) :
  is_settled (phase (fst (cancel st))) = true.
Proof.
  unfold Api.cancel. destruct (is_settled (phase st)) eqn:E; [exact E|reflexivity].
Qed.

(** Fragments that arrive while the chain waits for [fetch] do not exist;
    the model ignores them. *)
Lemma run_reads_connecting (b : string) (fs : list string) :
  run (mkStream Connecting b) (reads fs) = (mkStream Connecting b, []).
Proof.
  induction fs as [|f fs IH]; simpl; [reflexivity|].
  fold (reads fs). now rewrite IH.
Qed.

(** The read loop over a sequence of fragments: what is called back and
    what stays in [buffer] are functions of the concatenated text. *)
Lemma run_reads_streaming (fs : list string) : forall b : string,
  has_LF b = false ->
  run (mkStream Streaming b) (reads fs) =
  (mkStream Streaming (rest_of (b ++ join fs)),
   flat_map on_line (lines_of (b ++ join fs))).
Proof.
  induction fs as [|f fs IH]; intros b Hb.
  - simpl. rewrite append_nil_r.
    now rewrite (rest_of_LF_free b Hb), (lines_of_LF_free b Hb).
  - change (run (mkStream Streaming b) (reads (f :: fs)))
      with (let (st1, c1) := step (mkStream Streaming b) (ReadValue f) in
            let (st2, c2) := run st1 (reads fs) in (st2, (c1 ++ c2)%list)).
    rewrite step_read. rewrite (IH _ (rest_of_has_no_LF (b ++ f))).
    change (join (f :: fs)) with (f ++ join fs).
    rewrite <- append_assoc.
    rewrite (rest_of_app (b ++ f)), (lines_of_app (b ++ f)).
    now rewrite flat_map_app.
Qed.

(** [buffer] never holds a line feed between two turns of the loop. *)
Lemma deliver_buffer_LF_free (st : Stream) (i : Input) :
  has_LF (buffer st) = false ->
  has_LF (buffer (fst (deliver st i))) = false.
Proof.
  intros H. destruct st as [p b]. simpl in H.
  destruct i as [n|]; simpl.
  - destruct p, n as [ok status bd|e|text| |e]; try exact H.
    + unfold Api.step; simpl. destruct ok; [destruct bd|]; simpl;
        (exact H || reflexivity).
    + rewrite step_read. apply rest_of_has_no_LF.
  - unfold Api.cancel. simpl. destruct (is_settled p); exact H.
Qed.

Lemma run_buffer_LF_free (ins : list Input) : forall st : Stream,
  has_LF (buffer st) = false ->
  has_LF (buffer (fst (run st ins))) = false.
Proof.
  induction ins as [|i ins IH]; intros st H; simpl; [exact H|].
  pose proof (deliver_buffer_LF_free st i H) as H1.
  destruct (deliver st i) as [s1 c1]. simpl in H1.
  specialize (IH s1 H1). destruct (run s1 ins) as [s2 c2]. exact IH.
Qed.

(** From a state the stream can be in, the fragments matter through their
    concatenation only. *)
Lemma run_reads_join (st : Stream) (fs1 fs2 : list string) :
  has_LF (buffer st) = false ->
  join fs1 = join fs2 ->
  run st (reads fs1) = run st (reads fs2).
Proof.
  intros Hb Hj. destruct st as [p b]. simpl in Hb.
  destruct p.
  - now rewrite !run_reads_connecting.
  - rewrite !run_reads_streaming by exact Hb. now rewrite Hj.
  - now rewrite !settled_run.
  - now rewrite !settled_run.
  - now rewrite !settled_run.
Qed.

(** C5.  Two sequences of text fragments with the same concatenation make
    [streamChat] call [onEvent] with the same events in the same order, at
    whatever point of a stream they are read: before them come any inputs
    [pre], after them any inputs [post], and the callbacks of the whole
    stream are equal. *)
Theorem fragment_boundaries_irrelevant
    (pre post : list Input) (fs1 fs2 : list string) :
  join fs1 = join fs2 ->
  run streamChat (pre ++ reads fs1 ++ post) =
  run streamChat (pre ++ reads fs2 ++ post).
Proof.
  intros Hj.
  rewrite (run_app streamChat pre (reads fs1 ++ post)).
  rewrite (run_app streamChat pre (reads fs2 ++ post)).
  pose proof (run_buffer_LF_free pre streamChat eq_refl) as Hb.
  destruct (run streamChat pre) as [s1 c1]. simpl in Hb.
  rewrite !run_app.
  now rewrite (run_reads_join s1 fs1 fs2 Hb Hj).
Qed.

(** C7.  The function returned by [streamChat] calls nothing back, whatever
    the state of the stream; once it was called, nothing that happens to
    the stream (another call of it, or any answer of the platform) invokes
    [onEvent] or [onError]; and the same holds for a stream that has settled
    by itself, so that a call after completion changes nothing. *)
Theorem cancel_is_idempotent (st : Stream) (ins : list Input) :
  snd (cancel st) = []
  /\ cancel (fst (cancel st)) = (fst (cancel st), [])
  /\ run (fst (cancel st)) ins = (fst (cancel st), [])
  /\ (is_settled (phase st) = true -> run st (Cancel :: ins) = (st, [])).
Proof.
  pose proof (cancel_settles st) as Hs.
  repeat split.
  - unfold Api.cancel. destruct (is_settled (phase st)); reflexivity.
  - exact (settled_deliver _ Cancel Hs).
  - exact (settled_run _ ins Hs).
  - intros H. exact (settled_run st (Cancel :: ins) H).
Qed.

Lemma on_line_undecodable (line : string) :
  JSON_parse (JS.slice 6 line) = None -> on_line line = [].
Proof.
  intros H. unfold Api.on_line. rewrite H. now destruct (JS.startsWith _ _).
Qed.

Lemma on_line_decodable (payload : string) (event : json) :
  JSON_parse payload = Some event ->
  on_line ("data: " ++ payload) = [OnEvent event].
Proof.
  intros H. unfold Api.on_line, JS.startsWith.
  change (JS.slice 6 ("data: " ++ payload)) with payload.
  change (prefix "data: " ("data: " ++ payload)) with (prefix "" payload).
  rewrite H. now destruct payload.
Qed.

Lemma lines_never_error (ls : list string) (e : JS.Error) :
  ~ In (OnError e) (flat_map on_line ls).
Proof.
  intros Hin. apply in_flat_map in Hin as [l [_ Hl]].
  unfold Api.on_line in Hl.
  destruct (JS.startsWith "data: " l); [|exact Hl].
  destruct (JSON_parse (JS.slice 6 l)); [|exact Hl].
  destruct Hl as [Hl|[]]. discriminate.
Qed.

(** A whole body read to its end: the callbacks are those of its complete
    lines, in order, and the stream completes. *)
Lemma run_body (status : N) (fs : list string) :
  run streamChat
    (FromNet (FetchResolved true status true) :: reads fs ++ [FromNet ReadDone]) =
  (mkStream Completed (rest_of (join fs)), flat_map on_line (lines_of (join fs))).
Proof.
  change (run streamChat (FromNet (FetchResolved true status true)
                          :: reads fs ++ [FromNet ReadDone]))
    with (let (st2, c2) := run (mkStream Streaming "") (reads fs ++ [FromNet ReadDone])
          in (st2, ([] ++ c2)%list)).
  rewrite run_app, (run_reads_streaming fs "" eq_refl). simpl.
  now rewrite app_nil_r.
Qed.

(** C8, as the code has it.  What is dropped is a line whose remainder
    [JSON.parse] rejects, and only that: a remainder that parses is passed
    to [onEvent] as it is, whether or not it has the shape of a frame.
    A body that consists of the complete lines [l1], then a line that
    starts with ["data: "] and whose remainder [JSON.parse] rejects, then
    the complete lines [l2], then an unfinished [rest], however it is cut
    into fragments: the rejected line calls nothing back, the callbacks are
    exactly those of [l1] followed by those of [l2], none of them is
    [onError], and the stream completes.  A line whose remainder parses is
    called back with the parsed value. *)
Theorem malformed_data_line_is_skipped
    (status : N) (fs l1 l2 : list string) (line rest : string) :
  JS.startsWith "data: " line = true ->
  JSON_parse (JS.slice 6 line) = None ->
  has_LF line = false ->
  Forall (fun l => has_LF l = false) l1 ->
  Forall (fun l => has_LF l = false) l2 ->
  has_LF rest = false ->
  join fs = unlines (l1 ++ line :: l2) ++ rest ->
  on_line line = []
  /\ run streamChat
       (FromNet (FetchResolved true status true) :: reads fs ++ [FromNet ReadDone]) =
     (mkStream Completed rest, (flat_map on_line l1 ++ flat_map on_line l2)%list)
  /\ (forall e, ~ In (OnError e) (flat_map on_line l1 ++ flat_map on_line l2)%list)
  /\ (forall payload event,
        JSON_parse payload = Some event ->
        on_line ("data: " ++ payload) = [OnEvent event]).
Proof.
  intros _ Hbad Hline H1 H2 Hrest Hj.
  pose proof (on_line_undecodable line Hbad) as Hskip.
  assert (Hsplit : JS.split JS.LF (join fs) = ((l1 ++ line :: l2) ++ [rest])%list).
  { rewrite Hj. apply split_unlines; [|exact Hrest].
    apply Forall_app. split; [exact H1 | constructor; assumption]. }
  repeat split.
  - exact Hskip.
  - rewrite run_body. unfold rest_of, lines_of. rewrite Hsplit.
    rewrite last_last, removelast_last, flat_map_app. simpl.
    now rewrite Hskip.
  - intros e He. apply in_app_or in He.
    destruct He as [He|He]; exact (lines_never_error _ _ He).
  - exact on_line_decodable.
Qed.

(** C10.  When the body ends, the text left in [buffer] is never looked at:
    from a stream in its read loop, the end of the body and whatever follows
    call nothing back.  Hence a last fragment [t] without a line feed adds
    no callback to a stream: the callbacks with it are those without it. *)
Theorem unterminated_tail_is_dropped
    (st : Stream) (pre post : list Input) (fs : list string) (t : string) :
  phase st = Streaming ->
  buffer st <> "" ->
  has_LF t = false ->
  run st (FromNet ReadDone :: post) = (mkStream Completed (buffer st), [])
  /\ snd (run streamChat (pre ++ reads (fs ++ [t]) ++ FromNet ReadDone :: post)) =
     snd (run streamChat (pre ++ reads fs ++ FromNet ReadDone :: post)).
Proof.
  intros Hp _ Ht. split.
  - destruct st as [p b]. simpl in Hp. subst p.
    change (run (mkStream Streaming b) (FromNet ReadDone :: post))
      with (let (st2, c2) := run (mkStream Completed b) post in (st2, ([] ++ c2)%list)).
    now rewrite settled_run.
  - rewrite (run_app streamChat pre (reads (fs ++ [t]) ++ FromNet ReadDone :: post)).
    rewrite (run_app streamChat pre (reads fs ++ FromNet ReadDone :: post)).
    pose proof (run_buffer_LF_free pre streamChat eq_refl) as Hb.
    destruct (run streamChat pre) as [[p b] c1]. simpl in Hb.
    rewrite !run_app.
    destruct p.
    + rewrite !run_reads_connecting. reflexivity.
    + rewrite !run_reads_streaming by exact Hb.
      rewrite join_app. change (join [t]) with (t ++ ""). rewrite append_nil_r.
      rewrite <- append_assoc, lines_of_app.
      rewrite (lines_of_LF_free (rest_of (b ++ join fs) ++ t)), app_nil_r.
      * change (run ?s (FromNet ReadDone :: post))
          with (let (st2, c2) := run (mkStream Completed (buffer s)) post
                in (st2, ([] ++ c2)%list)).
        now rewrite !settled_run.
      * rewrite has_LF_append, rest_of_has_no_LF, Ht. reflexivity.
    + now rewrite !settled_run.
    + now rewrite !settled_run.
    + now rewrite !settled_run.
Qed.

End Generic.

(** *** The scenarios, with [Json.parse] for [JSON.parse] *)

Import Scenario.

(** The chunk frame cut inside its text, then the done frame: one chunk
    event that carries ["Hello"], then the done event. *)
Example hello_frames :
  Api.run Json.parse true streamChat
    [ok_response; FromNet (ReadValue hello_1); FromNet (ReadValue hello_2);
     end_of_body] =
  (mkStream Completed "", [OnEvent (chunk_event "Hello"); OnEvent done_event]).
Proof. vm_compute. reflexivity. Qed.

Lemma fragment_boundaries_irrelevant_witness :
  join [hello_1; hello_2] = join [hello_1 ++ hello_2]
  /\ Api.run Json.parse true streamChat
       ([ok_response] ++ reads [hello_1; hello_2] ++ [end_of_body]) =
     Api.run Json.parse true streamChat
       ([ok_response] ++ reads [hello_1 ++ hello_2] ++ [end_of_body]).
Proof.
  split.
  - reflexivity.
  - apply (fragment_boundaries_irrelevant Json.parse true). reflexivity.
Defined.

Lemma cancel_is_idempotent_witness :
  is_settled (phase (mkStream Completed "")) = true
  /\ Api.run Json.parse true (mkStream Completed "")
       [Cancel; Cancel; FromNet (ReadValue (done_line ++ JS.nl))] =
     (mkStream Completed "", []).
Proof.
  split.
  - reflexivity.
  - apply (cancel_is_idempotent Json.parse true (mkStream Completed "")
             [Cancel; FromNet (ReadValue (done_line ++ JS.nl))]).
    reflexivity.
Defined.

(** The line [data: not-json] is dropped and the done frame after it is
    called back; the stream completes without [onError]. *)
Lemma malformed_data_line_is_skipped_witness :
  JS.startsWith "data: " "data: not-json" = true
  /\ Json.parse (JS.slice 6 "data: not-json") = None
  /\ Api.run Json.parse true streamChat
       (ok_response :: reads [unlines ["data: not-json"; done_line]] ++ [end_of_body]) =
     (mkStream Completed "", [OnEvent done_event]).
Proof.
  split; [reflexivity|]. split; [reflexivity|].
  apply (malformed_data_line_is_skipped Json.parse true 200
           [unlines ["data: not-json"; done_line]] [] [done_line]
           "data: not-json" "");
    try reflexivity; repeat constructor.
Defined.

(** The claim of C8 fails for a remainder that is JSON text but no frame:
    [42], [null] and a chunk without its [data] do not inhabit [SSEEvent],
    and each is passed to [onEvent]; the stream goes on to the done frame
    as for any other line. *)
Lemma non_frame_payload_reaches_onEvent :
  JS.startsWith "data: " "data: 42" = true
  /\ as_SSEEvent (JNumber "42") = None
  /\ Api.on_line Json.parse "data: 42" = [OnEvent (JNumber "42")]
  /\ Api.run Json.parse true streamChat
       (ok_response :: reads [unlines ["data: 42"; done_line]] ++ [end_of_body]) =
     (mkStream Completed "", [OnEvent (JNumber "42"); OnEvent done_event])
  /\ as_SSEEvent JNull = None
  /\ Api.on_line Json.parse "data: null" = [OnEvent JNull]
  /\ as_SSEEvent (JObject [("type", JString "chunk")]) = None
  /\ Api.on_line Json.parse ("data: {" ++ quoted "type" ++ ":" ++ quoted "chunk" ++ "}") =
     [OnEvent (JObject [("type", JString "chunk")])].
Proof. vm_compute. repeat split. Qed.

(** A done frame without its line feed: nothing is called back. *)
Lemma unterminated_tail_is_dropped_witness :
  phase (mkStream Streaming done_line) = Streaming
  /\ buffer (mkStream Streaming done_line) <> ""
  /\ has_LF done_line = false
  /\ Api.run Json.parse true (mkStream Streaming done_line) [end_of_body] =
     (mkStream Completed done_line, [])
  /\ snd (Api.run Json.parse true streamChat
            ([ok_response] ++ reads ([] ++ [done_line]) ++ [end_of_body])) = [].
Proof.
  split; [reflexivity|]. split; [discriminate|]. split; [reflexivity|].
  apply (unterminated_tail_is_dropped Json.parse true
           (mkStream Streaming done_line) [ok_response] [] [] done_line).
  - reflexivity.
  - discriminate.
  - reflexivity.
Defined.

End StreamFacts.

(* ================================================================== *)
(** ** The chat session *)
(* ================================================================== *)

Module SessionFacts.

Import UseChat Text Scenario.

(** *** Frames other than the done frame *)

Lemma append_to_eq (aid text : string) (m : LocalMessage) :
  append_to aid text m =
  if id m =? aid
  then {| id := id m; role := role m; content := content m ++ text;
          sources := sources m; isStreaming := isStreaming m |}
  else m.
Proof. reflexivity. Qed.

Lemma finish_eq (aid : string) (v : option (list ChatSource)) (m : LocalMessage) :
  finish aid v m =
  if id m =? aid
  then {| id := id m; role := role m; content := content m;
          sources := v; isStreaming := Some false |}
  else m.
Proof. reflexivity. Qed.

Lemma append_to_empty (aid : string) (m : LocalMessage) : append_to aid "" m = m.
Proof.
  rewrite append_to_eq. destruct (id m =? aid); [|reflexivity].
  rewrite append_nil_r. now destruct m.
Qed.

Lemma append_to_twice (aid t1 t2 : string) (m : LocalMessage) :
  append_to aid t2 (append_to aid t1 m) = append_to aid (t1 ++ t2) m.
Proof.
  rewrite !append_to_eq. destruct (id m =? aid) eqn:E; simpl; rewrite E; [|reflexivity].
  now rewrite append_assoc.
Qed.

Lemma append_to_other (aid text : string) (m : LocalMessage) :
  id m <> aid -> append_to aid text m = m.
Proof.
  intros H. rewrite append_to_eq. apply String.eqb_neq in H. now rewrite H.
Qed.

Lemma finish_other (aid : string) (v : option (list ChatSource)) (m : LocalMessage) :
  id m <> aid -> finish aid v m = m.
Proof.
  intros H. rewrite finish_eq. apply String.eqb_neq in H. now rewrite H.
Qed.

Lemma map_unchanged {A : Type} (f : A -> A) (l : list A) :
  (forall x, In x l -> f x = x) -> map f l = l.
Proof.
  intros H. induction l as [|x l IH]; [reflexivity|].
  simpl. rewrite (H x (or_introl eq_refl)), IH; [reflexivity|].
  intros y Hy. apply H. now right.
Qed.

Lemma onEvent_chunk (c : Closure) (text : string) (s : State) :
  onEvent c (SSEChunk text) s =
  (c, setMessages (map (append_to (assistantId c) text)) s).
Proof.
  reflexivity.
Qed.

Lemma onEvent_done (c : Closure) (s : State) :
  onEvent c SSEDone s =
  (c, setLoading false
        (setMessages (map (finish (assistantId c) (let_sources c))) s)).
Proof.
  reflexivity.
Qed.

Lemma onEvents_app (xs ys : list SSEEvent) : forall (c : Closure) (s : State),
  onEvents c (xs ++ ys) s =
  let (c1, s1) := onEvents c xs s in onEvents c1 ys s1.
Proof.
  induction xs as [|x xs IH]; intros c s; [reflexivity|].
  simpl app. cbn [onEvents]. destruct (onEvent c x s) as [c1 s1]. apply IH.
Qed.

(** Sources and chunk frames: the closure keeps [assistantId] and holds the
    last sources; every message with that identifier has the chunk texts
    appended in order; nothing else changes. *)
Lemma onEvents_before_done (frames : list SSEEvent) : forall (c : Closure) (s : State),
  existsb is_done frames = false ->
  onEvents c frames s =
  ({| assistantId := assistantId c;
      let_sources := buffered (let_sources c) frames |},
   setMessages (map (append_to (assistantId c) (chunk_text frames))) s).
Proof.
  induction frames as [|e frames IH]; intros c s Hnd.
  - simpl. destruct c, s. unfold setMessages. simpl. f_equal. f_equal.
    symmetry. apply map_unchanged. intros m _. apply append_to_empty.
  - simpl in Hnd. apply orb_false_iff in Hnd as [He Hnd].
    destruct e as [data|data|]; [| |discriminate].
    + simpl. rewrite (IH _ _ Hnd). reflexivity.
    + cbn [onEvents]. rewrite onEvent_chunk, (IH _ _ Hnd). simpl.
      f_equal. unfold setMessages. simpl. f_equal.
      rewrite map_map. apply map_ext. intros m.
      apply (append_to_twice (assistantId c) data (chunk_text frames) m).
Qed.

(** *** [sendMessage] *)

Lemma sendMessage_streaming (k content : string) (now1 now2 : N) (h : Handle)
    (s : State) :
  k <> "" ->
  JS.trim content <> "" ->
  sendMessage (Some k) content true now1 now2 h s =
  ({| messages := (messages s ++ [userMsg content now1; assistantMsg now2])%list;
      loading := true; error := None; abortRef := Some h |},
   [StreamChat
      (Api.stream_request k {| rq_message := content; include_sources := Some true |})
      h],
   Some {| assistantId := "assistant-" ++ JS.decimal now2; let_sources := None |}).
Proof.
  intros Hk Hc. apply String.eqb_neq in Hk, Hc.
  unfold sendMessage, no_kb, is_empty. rewrite Hk, Hc. simpl.
  unfold set_abortRef, setMessages, setLoading, setError. simpl.
  now rewrite <- app_assoc.
Qed.

Lemma sendMessage_blank (kbId : option string) (content : string)
    (useStreaming : bool) (now1 now2 : N) (h : Handle) (s : State) :
  JS.trim content = "" ->
  sendMessage kbId content useStreaming now1 now2 h s = (s, [], None).
Proof.
  intros Hc. unfold sendMessage, is_empty. rewrite Hc. simpl.
  destruct kbId; [|reflexivity]. now rewrite orb_true_r.
Qed.

Lemma sendMessage_no_kb (kbId : option string) (content : string)
    (useStreaming : bool) (now1 now2 : N) (h : Handle) (s : State) :
  no_kb kbId = true ->
  sendMessage kbId content useStreaming now1 now2 h s = (s, [], None).
Proof.
  intros Hk. unfold sendMessage. destruct kbId; [|reflexivity]. now rewrite Hk.
Qed.

(** The hook while the stream of [asked] is in flight, asked again. *)
Lemma send_while_streaming_appends :
  loading asked_state = true
  /\ abortRef asked_state = Some 0
  /\ map isStreaming (messages asked_state) = [None; Some true]
  /\ length (messages (fst (fst (sendMessage (Some "kb") "And Y?" true 2 2 1
                                    asked_state)))) = 4
  /\ length (messages asked_state) = 2
  /\ messages (fst (fst (sendMessage (Some "kb") "And Y?" true 2 2 1 asked_state)))
     <> messages asked_state.
Proof. vm_compute. repeat split. discriminate. Qed.

(** C1, as the code has it.  [sendMessage] does not look at whether a
    stream is in flight: with a knowledge base selected and a text that is
    not blank it appends the user message and the assistant message also
    while [loading] is set.  It does nothing for a blank text, and nothing
    when no knowledge base is selected.  The gate is
    in its caller: [handleSubmit] of the [Chat] component does nothing while
    [loading] is set. *)
Theorem single_flight_is_the_callers_gate
    (k content : string) (now1 now2 : N) (h : Handle) (cs : Chat.State) :
  k <> "" ->
  JS.trim content <> "" ->
  loading (Chat.chat cs) = true ->
  messages (fst (fst (sendMessage (Some k) content true now1 now2 h (Chat.chat cs)))) =
    (messages (Chat.chat cs) ++ [userMsg content now1; assistantMsg now2])%list
  /\ Chat.handleSubmit k now1 now2 h cs = (cs, [])
  /\ (forall blank, JS.trim blank = "" ->
        sendMessage (Some k) blank true now1 now2 h (Chat.chat cs) =
        (Chat.chat cs, [], None))
  /\ (forall kbId text, no_kb kbId = true ->
        sendMessage kbId text true now1 now2 h (Chat.chat cs) =
        (Chat.chat cs, [], None)).
Proof.
  intros Hk Hc Hl. repeat split.
  - now rewrite (sendMessage_streaming k content now1 now2 h _ Hk Hc).
  - unfold Chat.handleSubmit. rewrite Hl. now rewrite orb_true_r.
  - intros blank Hb. now apply sendMessage_blank.
  - intros kbId text Hn. now apply sendMessage_no_kb.
Qed.

Lemma single_flight_is_the_callers_gate_witness :
  "kb" <> ""
  /\ JS.trim "And Y?" <> ""
  /\ loading asked_state = true
  /\ Chat.handleSubmit "kb" 2 2 1 (Chat.mkState "And Y?" asked_state) =
     (Chat.mkState "And Y?" asked_state, []).
Proof.
  split; [discriminate|]. split; [discriminate|]. split; [reflexivity|].
  apply (single_flight_is_the_callers_gate "kb" "And Y?" 2 2 1
           (Chat.mkState "And Y?" asked_state));
    (discriminate || reflexivity).
Defined.

(** *** The error callback *)

(** C2, the code at a failing input.  The error callback records the
    message and clears [loading]; it leaves the message sequence and
    [abortRef] as they are.  After [sendMessage("What is X?")], the chunk
    ["Par"] and the error [HTTP 500], the assistant message still has
    [isStreaming] set, with its content ["Par"]. *)
Theorem transport_error_keeps_streaming_flag :
  (forall (err : JS.Error) (s : State),
      messages (onError err s) = messages s
      /\ abortRef (onError err s) = abortRef s
      /\ error (onError err s) = Some (JS.message err)
      /\ loading (onError err s) = false)
  /\ (let s := snd (onEvent asked_closure (SSEChunk "Par") asked_state) in
      let s' := onError (JS.new_Error "HTTP 500") s in
      map content (messages s') = ["What is X?"; "Par"]
      /\ map isStreaming (messages s') = [None; Some true]
      /\ error s' = Some "HTTP 500"
      /\ abortRef s' = Some 0).
Proof.
  split.
  - intros err s. repeat split.
  - vm_compute. repeat split.
Qed.

(** *** A stream that runs to its done frame *)

Lemma user_is_not_assistant (a b : string) : "user-" ++ a <> "assistant-" ++ b.
Proof. discriminate. Qed.

(** The claim of C3 fails in three places.  After [sendMessage], the chunks
    and the done frame, [abortRef] still holds the handle.  The user message
    holds the trimmed text, not the text.  And the end of the body is no
    callback: without a done frame the assistant message stays flagged and
    [loading] stays set.  Besides, an earlier message that carries the
    identifier of the new assistant message is rewritten by the frames as
    well. *)
Lemma done_keeps_handle_and_send_trims :
  snd asked = Some asked_closure
  /\ abortRef (snd (onEvents asked_closure
                      [SSEChunk "X "; SSEChunk "is "; SSEChunk "Y"; SSEDone]
                      asked_state)) <> None
  /\ map content
       (messages (fst (fst (sendMessage (Some "kb") " hi " true 1 1 0 initial))))
     <> [" hi "; ""]
  /\ snd (Api.run Json.parse true Api.streamChat
            [ok_response; Api.FromNet (Api.ReadValue "data: x"); end_of_body]) = []
  /\ (let s := snd (onEvents asked_closure [SSEChunk "X "] asked_state) in
      loading s = true /\ map isStreaming (messages s) = [None; Some true])
  /\ (let s0 := switched (Some "kb") colliding_history initial in
      let s1 := fst (fst (sendMessage (Some "kb") "What is X?" true 1 1 0 s0)) in
      map content (messages s0) = ["old answer"]
      /\ map content
           (messages (snd (onEvents asked_closure
                             [SSEChunk "X "; SSEChunk "is "; SSEChunk "Y"; SSEDone]
                             s1))) =
         ["old answerX is Y"; "What is X?"; "X is Y"]).
Proof. vm_compute. repeat split; discriminate. Qed.

(** C3, as the code has it.  With a knowledge base selected and a text
    that is not blank, [sendMessage] starts a stream; after sources and
    chunk frames and then the done frame, the message sequence is as many
    earlier messages as there were, followed by the user message with the
    trimmed text and by the assistant message whose content is the chunk
    texts in their order, not streaming, with the last sources received;
    [loading] is cleared and no error is recorded.  [abortRef] still holds
    the handle of the stream.  An earlier message with another identifier
    than the new assistant message stays as it was; one with that
    identifier gets the chunk texts appended, the sources attached and its
    flag cleared as well.  So the earlier messages are unchanged provided
    none of them carries that identifier.  The end of the body calls
    nothing back. *)
Theorem send_then_frames_then_done
    (k content : string) (now1 now2 : N) (h : Handle) (s : State)
    (frames : list SSEEvent) :
  k <> "" ->
  JS.trim content <> "" ->
  existsb is_done frames = false ->
  exists (s1 : State) (effects : list Effect) (c : Closure),
    sendMessage (Some k) content true now1 now2 h s = (s1, effects, Some c)
    /\ let s' := snd (onEvents c (frames ++ [SSEDone]) s1) in
       skipn (length (messages s)) (messages s') =
         [ {| id := "user-" ++ JS.decimal now1; role := user;
              content := JS.trim content; sources := None; isStreaming := None |};
           {| id := "assistant-" ++ JS.decimal now2; role := assistant;
              content := chunk_text frames; sources := buffered None frames;
              isStreaming := Some false |} ]
       /\ length (messages s') = length (messages s) + 2
       /\ loading s' = false
       /\ error s' = None
       /\ abortRef s' = Some h
       /\ Forall2
            (fun m m' =>
               (id m <> "assistant-" ++ JS.decimal now2 -> m' = m)
               /\ (id m = "assistant-" ++ JS.decimal now2 ->
                   m' = {| id := id m; role := role m;
                           content := UseChat.content m ++ chunk_text frames;
                           sources := buffered None frames;
                           isStreaming := Some false |}))
            (messages s) (firstn (length (messages s)) (messages s'))
       /\ (Forall (fun m => id m <> "assistant-" ++ JS.decimal now2) (messages s) ->
           firstn (length (messages s)) (messages s') = messages s)
       /\ (forall JSON_parse has_onError b,
             Api.step JSON_parse has_onError (Api.mkStream Api.Streaming b) Api.ReadDone =
             (Api.mkStream Api.Completed b, [])).
Proof.
  intros Hk Hc Hnd.
  eexists _, _, _. split; [exact (sendMessage_streaming k content now1 now2 h s Hk Hc)|].
  set (aid := "assistant-" ++ JS.decimal now2).
  rewrite onEvents_app, (onEvents_before_done frames _ _ Hnd).
  cbn [onEvents assistantId let_sources]. rewrite onEvent_done.
  cbn [snd assistantId let_sources setLoading setMessages messages loading error abortRef].
  rewrite !map_app.
  assert (Hu : map (finish aid (buffered None frames))
                 (map (append_to aid (chunk_text frames))
                    [userMsg content now1; assistantMsg now2]) =
               [ {| id := "user-" ++ JS.decimal now1; role := user;
                    content := JS.trim content; sources := None; isStreaming := None |};
                 {| id := aid; role := assistant;
                    content := chunk_text frames; sources := buffered None frames;
                    isStreaming := Some false |} ]).
  { cbn [map].
    rewrite (append_to_other aid (chunk_text frames) (userMsg content now1)
               (user_is_not_assistant _ _)).
    rewrite (finish_other aid (buffered None frames) (userMsg content now1)
               (user_is_not_assistant _ _)).
    rewrite append_to_eq, finish_eq. unfold assistantMsg, userMsg.
    cbn [id role UseChat.content sources isStreaming]. fold aid.
    rewrite String.eqb_refl. cbn [id role UseChat.content sources isStreaming].
    now rewrite String.eqb_refl. }
  rewrite Hu.
  repeat split.
  - rewrite skipn_app, !length_map, Nat.sub_diag.
    rewrite skipn_all2 by (rewrite !length_map; lia). reflexivity.
  - rewrite length_app, !length_map. reflexivity.
  - rewrite firstn_app, !length_map, Nat.sub_diag, firstn_O, app_nil_r.
    rewrite firstn_all2 by (rewrite !length_map; lia).
    rewrite map_map.
    induction (messages s) as [|m l IHl]; cbn [map]; constructor; [|exact IHl].
    split.
    + intros Hne. rewrite (append_to_other aid _ m Hne). now apply finish_other.
    + intros He. apply String.eqb_eq in He.
      rewrite append_to_eq, He, finish_eq.
      cbn [id role UseChat.content sources isStreaming]. now rewrite He.
  - intros Hfresh. rewrite firstn_app, !length_map, Nat.sub_diag, firstn_O, app_nil_r.
    rewrite firstn_all2 by (rewrite !length_map; lia).
    rewrite map_map. apply map_unchanged. intros m Hm.
    rewrite Forall_forall in Hfresh. specialize (Hfresh m Hm).
    rewrite (append_to_other aid _ m Hfresh). now apply finish_other.
Qed.

Lemma send_then_frames_then_done_witness :
  "kb" <> ""
  /\ JS.trim "What is X?" <> ""
  /\ existsb is_done [SSEChunk "X "; SSEChunk "is "; SSEChunk "Y"] = false
  /\ exists s1 effects c,
       sendMessage (Some "kb") "What is X?" true 1 1 0 initial = (s1, effects, Some c)
       /\ let s' := snd (onEvents c ([SSEChunk "X "; SSEChunk "is "; SSEChunk "Y"]
                                     ++ [SSEDone]) s1) in
          skipn (length (messages initial)) (messages s') =
            [ {| id := "user-1"; role := user; content := "What is X?";
                 sources := None; isStreaming := None |};
              {| id := "assistant-1"; role := assistant; content := "X is Y";
                 sources := None; isStreaming := Some false |} ].
Proof.
  split; [discriminate|]. split; [discriminate|]. split; [reflexivity|].
  destruct (send_then_frames_then_done "kb" "What is X?" 1 1 0 initial
              [SSEChunk "X "; SSEChunk "is "; SSEChunk "Y"])
    as (s1 & effects & c & Hsend & Hmsgs & _);
    [discriminate | discriminate | reflexivity |].
  exists s1, effects, c. split; [exact Hsend | exact Hmsgs].
Defined.

(** The scenario from the bytes on: the body holds the chunk frames
    ["X "], ["is "], ["Y"] and the done frame, cut in two inside a line. *)
Example what_is_X :
  let body := unlines [chunk_line "X "; chunk_line "is "; chunk_line "Y"; done_line] in
  let cbs :=
    snd (Api.run Json.parse true Api.streamChat
           [ok_response;
            Api.FromNet (Api.ReadValue (substring 0 40 body));
            Api.FromNet (Api.ReadValue (substring 40 (String.length body) body));
            end_of_body]) in
  typed_events cbs = [SSEChunk "X "; SSEChunk "is "; SSEChunk "Y"; SSEDone]
  /\ snd (onEvents asked_closure (typed_events cbs) asked_state) =
     {| messages :=
          [ {| id := "user-1"; role := user; content := "What is X?";
               sources := None; isStreaming := None |};
            {| id := "assistant-1"; role := assistant; content := "X is Y";
               sources := None; isStreaming := Some false |} ];
        loading := false; error := None; abortRef := Some 0 |}.
Proof. vm_compute. split; reflexivity. Qed.

(** *** A stream outlived by its session *)

Lemma existsb_is_done_chunks (texts : list string) :
  existsb is_done (map SSEChunk texts) = false.
Proof. induction texts as [|t texts IH]; [reflexivity | exact IH]. Qed.

Lemma switched_messages (kbId' : option string) (history : list ChatMessage)
    (s : State) :
  messages (switched kbId' history s) = [] \/
  messages (switched kbId' history s) = map of_history history.
Proof.
  unfold switched, history_effect.
  destruct kbId' as [k'|]; [|now left].
  destruct (no_kb (Some k')); [now left | now right].
Qed.

(** A chunk of the stream that [asked] started reaches a reloaded history
    that holds a message with the identifier of its assistant message. *)
Lemma stale_chunk_reaches_reloaded_history :
  snd asked = Some asked_closure
  /\ (let s2 := switched (Some "kb2") colliding_history asked_state in
      map content (messages s2) = ["old answer"]
      /\ map content (messages (snd (onEvents asked_closure [SSEChunk "late"] s2))) =
         ["old answerlate"]
      /\ messages (snd (onEvents asked_closure [SSEChunk "late"] s2)) <> messages s2).
Proof. vm_compute. repeat split. discriminate. Qed.

(** C4, as the code has it.  There is no generation counter: a chunk of
    a stream is applied to every message that carries the identifier of the
    assistant message of that stream.  So when the knowledge base was
    switched after [sendMessage] (the messages emptied, or replaced by the
    reloaded history), the chunk frames of the old stream leave the message
    sequence as it is provided no reloaded message carries that identifier. *)
Theorem stale_chunks_leave_reloaded_history
    (k content : string) (now1 now2 : N) (h : Handle) (s : State)
    (kbId' : option string) (history : list ChatMessage) (texts : list string) :
  k <> "" ->
  JS.trim content <> "" ->
  Forall (fun m => cm_id m <> "assistant-" ++ JS.decimal now2) history ->
  exists (s1 : State) (effects : list Effect) (c : Closure),
    sendMessage (Some k) content true now1 now2 h s = (s1, effects, Some c)
    /\ let s2 := switched kbId' history s1 in
       messages (snd (onEvents c (map SSEChunk texts) s2)) = messages s2.
Proof.
  intros Hk Hc Hfresh.
  eexists _, _, _. split; [exact (sendMessage_streaming k content now1 now2 h s Hk Hc)|].
  cbv zeta. rewrite (onEvents_before_done _ _ _ (existsb_is_done_chunks texts)).
  cbn [snd setMessages messages assistantId].
  apply map_unchanged. intros m Hm. apply append_to_other.
  destruct (switched_messages kbId' history
              {| messages := (messages s ++ [userMsg content now1; assistantMsg now2])%list;
                 loading := true; error := None; abortRef := Some h |}) as [E|E];
    rewrite E in Hm; [destruct Hm|].
  apply in_map_iff in Hm as [p [Hp Hin]]. subst m.
  rewrite Forall_forall in Hfresh. exact (Hfresh p Hin).
Qed.

Lemma stale_chunks_leave_reloaded_history_witness :
  "kb" <> ""
  /\ JS.trim "What is X?" <> ""
  /\ Forall (fun m => cm_id m <> "assistant-" ++ JS.decimal 1) plain_history
  /\ exists s1 effects c,
       sendMessage (Some "kb") "What is X?" true 1 1 0 initial = (s1, effects, Some c)
       /\ let s2 := switched (Some "kb2") plain_history s1 in
          messages (snd (onEvents c (map SSEChunk ["X "; "is "; "Y"]) s2)) = messages s2.
Proof.
  assert (Hfresh : Forall (fun m => cm_id m <> "assistant-" ++ JS.decimal 1) plain_history).
  { repeat constructor. discriminate. }
  split; [discriminate|]. split; [discriminate|]. split; [exact Hfresh|].
  apply (stale_chunks_leave_reloaded_history "kb" "What is X?" 1 1 0 initial
           (Some "kb2") plain_history ["X "; "is "; "Y"]);
    [discriminate | discriminate | exact Hfresh].
Defined.

(** *** [stopStreaming] *)

Lemma unflag_frozen (m : LocalMessage) : frozen m (unflag m).
Proof.
  unfold frozen, unflag, truthy.
  destruct m as [i r c v [[|]|]]; simpl; repeat split;
    try discriminate; try reflexivity; try congruence.
Qed.

Lemma map_Forall2 {A B : Type} (R : A -> B -> Prop) (f : A -> B) (l : list A) :
  (forall x, R x (f x)) -> Forall2 R l (map f l).
Proof. intros H. induction l; constructor; auto. Qed.

Lemma run_cancelled (JSON_parse : string -> option json) (has_onError : bool)
    (st : Api.Stream) (ins : list Api.Input) :
  snd (Api.run JSON_parse has_onError st (Api.Cancel :: ins)) = [].
Proof.
  cbn [Api.run Api.deliver].
  pose proof (StreamFacts.cancel_settles has_onError st) as Hs.
  assert (Hc : snd (Api.cancel has_onError st) = []).
  { unfold Api.cancel. destruct (Api.is_settled (Api.phase st)); reflexivity. }
  destruct (Api.cancel has_onError st) as [s1 c1]. simpl in Hs, Hc. subst c1.
  now rewrite (StreamFacts.settled_run JSON_parse has_onError s1 ins Hs).
Qed.

(** C6.  With a stream in flight, [stopStreaming] aborts it; every message
    keeps its identifier, role, content and sources, none is flagged
    streaming afterwards, and one that was not flagged is left as it was;
    [loading] and [abortRef] are cleared and the recorded error is what it
    was.  The aborted stream calls neither [onEvent] nor [onError], whatever
    reaches it afterwards. *)
Theorem stop_freezes_partial_content
    (s : State) (h : Handle)
    (JSON_parse : string -> option json) (has_onError : bool)
    (st : Api.Stream) (ins : list Api.Input) :
  abortRef s = Some h ->
  snd (stopStreaming s) = [Abort h]
  /\ Forall2 frozen (messages s) (messages (fst (stopStreaming s)))
  /\ loading (fst (stopStreaming s)) = false
  /\ abortRef (fst (stopStreaming s)) = None
  /\ error (fst (stopStreaming s)) = error s
  /\ snd (Api.run JSON_parse has_onError st (Api.Cancel :: ins)) = [].
Proof.
  intros Hh. unfold stopStreaming. rewrite Hh. cbn [fst snd].
  repeat split.
  - cbn [setMessages messages]. apply map_Forall2. exact unflag_frozen.
  - apply run_cancelled.
Qed.

(** The scenario: [stopStreaming] after only ["Partial"] has arrived. *)
Example stop_after_partial :
  let s := snd (onEvent asked_closure (SSEChunk "Partial") asked_state) in
  fst (stopStreaming s) =
  {| messages :=
       [ {| id := "user-1"; role := user; content := "What is X?";
            sources := None; isStreaming := None |};
         {| id := "assistant-1"; role := assistant; content := "Partial";
            sources := None; isStreaming := Some false |} ];
     loading := false; error := None; abortRef := None |}.
Proof. vm_compute. reflexivity. Qed.

Lemma stop_freezes_partial_content_witness :
  let s := snd (onEvent asked_closure (SSEChunk "Partial") asked_state) in
  abortRef s = Some 0
  /\ snd (stopStreaming s) = [Abort 0]
  /\ Forall2 frozen (messages s) (messages (fst (stopStreaming s)))
  /\ loading (fst (stopStreaming s)) = false
  /\ abortRef (fst (stopStreaming s)) = None
  /\ error (fst (stopStreaming s)) = error s
  /\ snd (Api.run Json.parse true (Api.mkStream Api.Streaming "data: {")
            (Api.Cancel :: [Api.FromNet (Api.ReadValue hello_2); end_of_body])) = [].
Proof.
  cbv zeta. split; [reflexivity|].
  apply (stop_freezes_partial_content
           (snd (onEvent asked_closure (SSEChunk "Partial") asked_state)) 0
           Json.parse true (Api.mkStream Api.Streaming "data: {")
           [Api.FromNet (Api.ReadValue hello_2); end_of_body]).
  reflexivity.
Defined.

(** *** [clearHistory] *)

(** C9.  Calling [clearHistory] changes nothing by itself.  When the
    request it awaits resolves, the message sequence is emptied and the
    rest of the state is kept.  When it rejects, the message sequence is
    kept and an error string is recorded. *)
Theorem clearHistory_empties_after_success
    (kbId : option string) (s s' : State) (e : Thrown) :
  fst (clearHistory kbId s) = s
  /\ messages (clearHistory_settled Resolved s') = []
  /\ loading (clearHistory_settled Resolved s') = loading s'
  /\ error (clearHistory_settled Resolved s') = error s'
  /\ abortRef (clearHistory_settled Resolved s') = abortRef s'
  /\ messages (clearHistory_settled (Rejected e) s') = messages s'
  /\ (exists msg : string, error (clearHistory_settled (Rejected e) s') = Some msg).
Proof.
  repeat split.
  - unfold clearHistory. destruct kbId as [k|]; [|reflexivity].
    now destruct (no_kb (Some k)).
  - eexists. reflexivity.
Qed.

End SessionFacts.

(* ================================================================== *)
(** ** More on the stream transport *)
(* ================================================================== *)

Module TransportFacts.

Import Api Text.

Section Generic.

Variable JSON_parse : string -> option json.

Local Abbreviation on_line := (Api.on_line JSON_parse).

Lemma run_cons (b : bool) (st : Stream) (i : Input) (ins : list Input) :
  Api.run JSON_parse b st (i :: ins) =
  let (st1, c1) := Api.deliver JSON_parse b st i in
  let (st2, c2) := Api.run JSON_parse b st1 ins in (st2, (c1 ++ c2)%list).
Proof. reflexivity. Qed.

Lemma run_ok_response (b : bool) (status : N) (ins : list Input) :
  Api.run JSON_parse b streamChat (FromNet (FetchResolved true status true) :: ins) =
  Api.run JSON_parse b (mkStream Streaming "") ins.
Proof.
  rewrite run_cons. cbn [Api.deliver Api.step streamChat phase negb].
  now destruct (Api.run JSON_parse b (mkStream Streaming "") ins).
Qed.

(** The read loop over a body that consists of the complete lines [ls] and
    an unfinished [rest]. *)
Lemma run_lines (b : bool) (fs ls : list string) (rest : string) :
  Forall (fun l => has_LF l = false) ls ->
  has_LF rest = false ->
  join fs = unlines ls ++ rest ->
  Api.run JSON_parse b (mkStream Streaming "") (reads fs) =
  (mkStream Streaming rest, flat_map on_line ls).
Proof.
  intros Hls Hrest Hj.
  rewrite (StreamFacts.run_reads_streaming JSON_parse b fs "" eq_refl).
  cbn [append]. unfold rest_of, lines_of.
  rewrite Hj, (split_unlines ls rest Hls Hrest).
  now rewrite last_last, removelast_last.
Qed.

(** X1.  A response that is not ok, or that has no body, makes [streamChat]
    call [onError] once, with [HTTP <status>] or [No response body], and
    never [onEvent], whatever follows; without an [onError] argument
    nothing is called.  [useChat] shows that message as the session
    error. *)
Theorem http_failure_is_reported_once
    (status : N) (bd : bool) (ins : list Input) (s : UseChat.State) :
  Api.run JSON_parse true streamChat (FromNet (FetchResolved false status bd) :: ins) =
    (mkStream Errored "", [OnError (JS.new_Error ("HTTP " ++ JS.decimal status))])
  /\ Api.run JSON_parse true streamChat (FromNet (FetchResolved true status false) :: ins) =
     (mkStream Errored "", [OnError (JS.new_Error "No response body")])
  /\ Api.run JSON_parse false streamChat (FromNet (FetchResolved false status bd) :: ins) =
     (mkStream Errored "", [])
  /\ UseChat.error
       (fold_left
          (fun s cb => match cb with
                       | OnError e => UseChat.onError e s
                       | OnEvent _ => s
                       end)
          (snd (Api.run JSON_parse true streamChat
                  (FromNet (FetchResolved false status bd) :: ins))) s) =
     Some ("HTTP " ++ JS.decimal status).
Proof.
  assert (H1 : forall b, Api.run JSON_parse b streamChat
                 (FromNet (FetchResolved false status bd) :: ins) =
               (mkStream Errored "",
                if b then [OnError (JS.new_Error ("HTTP " ++ JS.decimal status))] else [])).
  { intros b. rewrite run_cons. cbn [Api.deliver Api.step streamChat phase negb].
    rewrite StreamFacts.settled_run by reflexivity.
    destruct b; reflexivity. }
  repeat split.
  - exact (H1 true).
  - rewrite run_cons. cbn [Api.deliver Api.step streamChat phase negb].
    now rewrite StreamFacts.settled_run by reflexivity.
  - exact (H1 false).
  - now rewrite (H1 true).
Qed.

Lemma deliver_shape (b : bool) (st : Stream) (i : Input) :
  forallb is_event (snd (Api.deliver JSON_parse b st i)) = true
  \/ (is_settled (phase (fst (Api.deliver JSON_parse b st i))) = true
      /\ exists e, snd (Api.deliver JSON_parse b st i) = [OnError e]
                   /\ JS.name e <> "AbortError").
Proof.
  assert (Hcatch : forall e st',
             forallb is_event (snd (Api.settle_with e st', Api.catch b e)) = true
             \/ (is_settled (phase (fst (Api.settle_with e st', Api.catch b e))) = true
                 /\ exists e', snd (Api.settle_with e st', Api.catch b e) = [OnError e']
                               /\ JS.name e' <> "AbortError")).
  { intros e st'. unfold Api.catch, Api.settle_with. cbn [fst snd phase].
    destruct (JS.name e =? "AbortError") eqn:E; [now left|].
    destruct b; [|now left]. right. split; [reflexivity|].
    exists e. split; [reflexivity|]. now apply String.eqb_neq. }
  assert (Hlines : forall ls, forallb is_event (flat_map on_line ls) = true).
  { induction ls as [|l ls IH]; [reflexivity|].
    cbn [flat_map]. rewrite forallb_app, IH, andb_true_r.
    unfold Api.on_line. destruct (JS.startsWith "data: " l); [|reflexivity].
    now destruct (JSON_parse (JS.slice 6 l)). }
  destruct st as [p buf]. destruct i as [n|].
  - destruct p, n as [ok status bd|e|text| |e]; cbn [Api.deliver Api.step phase];
      try (now left); try apply Hcatch.
    + destruct ok; [destruct bd|]; cbn [negb]; try (now left); apply Hcatch.
    + left. unfold Api.on_value. rewrite pop_split. cbn [snd JS.or_empty buffer].
      apply Hlines.
  - cbn [Api.deliver]. unfold Api.cancel. cbn [phase].
    destruct (is_settled p); [now left | apply Hcatch].
Qed.

(** X2.  Whatever happens to a stream, in whatever state it is: its
    callbacks are calls of [onEvent] followed by at most one call of
    [onError], and the error reported is never the one an abort causes. *)
Theorem onError_comes_last_and_once (b : bool) (ins : list Input) :
  forall st : Stream,
    exists evs errs,
      snd (Api.run JSON_parse b st ins) = (evs ++ errs)%list
      /\ forallb is_event evs = true
      /\ (errs = [] \/ exists e, errs = [OnError e] /\ JS.name e <> "AbortError").
Proof.
  induction ins as [|i ins IH]; intros st.
  - exists [], []. repeat split. now left.
  - rewrite run_cons.
    pose proof (deliver_shape b st i) as Hd.
    destruct (Api.deliver JSON_parse b st i) as [s1 c1]. cbn [fst snd] in Hd.
    destruct Hd as [Hev | [Hs [e [Hc Hn]]]].
    + destruct (IH s1) as (evs & errs & Hrun & Hevs & Herrs).
      destruct (Api.run JSON_parse b s1 ins) as [s2 c2]. cbn [snd] in *.
      exists (c1 ++ evs)%list, errs. repeat split.
      * rewrite Hrun. now rewrite app_assoc.
      * now rewrite forallb_app, Hev, Hevs.
      * exact Herrs.
    + rewrite (StreamFacts.settled_run JSON_parse b s1 ins Hs). cbn [snd].
      exists [], c1. repeat split.
      * now rewrite app_nil_r.
      * right. exists e. split; assumption.
Qed.

(** X3.  A complete line that does not start with ["data: "] calls nothing
    back, also when it holds a frame: a body with such a line among its
    lines has the callbacks of the lines before it followed by those of
    the lines after it, however the body is cut into fragments. *)
Theorem line_without_data_prefix_is_ignored
    (b : bool) (status : N) (fs l1 l2 : list string) (line rest : string) :
  JS.startsWith "data: " line = false ->
  has_LF line = false ->
  Forall (fun l => has_LF l = false) l1 ->
  Forall (fun l => has_LF l = false) l2 ->
  has_LF rest = false ->
  join fs = unlines (l1 ++ line :: l2) ++ rest ->
  Api.run JSON_parse b streamChat
    (FromNet (FetchResolved true status true) :: reads fs ++ [FromNet ReadDone]) =
  (mkStream Completed rest, (flat_map on_line l1 ++ flat_map on_line l2)%list).
Proof.
  intros Hp Hline H1 H2 Hrest Hj.
  rewrite run_ok_response, StreamFacts.run_app.
  rewrite (run_lines b fs (l1 ++ line :: l2) rest); [|
    apply Forall_app; split; [exact H1 | constructor; assumption] | exact Hrest | exact Hj].
  cbn [Api.run Api.deliver Api.step phase buffer].
  rewrite flat_map_app. cbn [flat_map]. unfold Api.on_line at 2. rewrite Hp.
  now rewrite !app_nil_r.
Qed.

(** X4.  When a read fails in the middle of a body, the events of the
    complete lines received so far have been passed on, in order; then
    [onError] is called once with the failure; the unfinished line is
    dropped and nothing is called afterwards. *)
Theorem read_failure_keeps_earlier_events
    (status : N) (fs ls : list string) (rest : string) (e : JS.Error)
    (post : list Input) :
  JS.name e <> "AbortError" ->
  Forall (fun l => has_LF l = false) ls ->
  has_LF rest = false ->
  join fs = unlines ls ++ rest ->
  Api.run JSON_parse true streamChat
    (FromNet (FetchResolved true status true)
       :: reads fs ++ FromNet (ReadRejected e) :: post) =
  (mkStream Errored rest, (flat_map on_line ls ++ [OnError e])%list).
Proof.
  intros Hn Hls Hrest Hj. apply String.eqb_neq in Hn.
  rewrite run_ok_response, StreamFacts.run_app.
  rewrite (run_lines true fs ls rest Hls Hrest Hj).
  rewrite run_cons. cbn [Api.deliver Api.step phase buffer].
  unfold Api.settle_with, Api.catch. rewrite Hn. cbn [negb andb buffer].
  now rewrite StreamFacts.settled_run by reflexivity.
Qed.

(** X5.  When the stream is cancelled in the middle of a body, the events
    of the complete lines received before have been passed on, in order,
    and that is all: no [onError], and nothing for what arrives later. *)
Theorem cancel_keeps_earlier_events
    (b : bool) (status : N) (fs ls : list string) (rest : string)
    (post : list Input) :
  Forall (fun l => has_LF l = false) ls ->
  has_LF rest = false ->
  join fs = unlines ls ++ rest ->
  Api.run JSON_parse b streamChat
    (FromNet (FetchResolved true status true) :: reads fs ++ Cancel :: post) =
  (mkStream Cancelled rest, flat_map on_line ls).
Proof.
  intros Hls Hrest Hj.
  rewrite run_ok_response, StreamFacts.run_app.
  rewrite (run_lines b fs ls rest Hls Hrest Hj).
  rewrite run_cons. cbn [Api.deliver]. unfold Api.cancel. cbn [phase is_settled].
  unfold Api.settle_with, Api.catch. cbn [JS.name JS.AbortError String.eqb].
  rewrite StreamFacts.settled_run by reflexivity.
  cbn. now rewrite !app_nil_r.
Qed.

End Generic.

Import Scenario.

Lemma line_without_data_prefix_is_ignored_witness :
  JS.startsWith "data: " (": keep-alive " ++ done_payload) = false
  /\ Api.run Json.parse true streamChat
       (ok_response
          :: reads [unlines [chunk_line "Hi"; ": keep-alive " ++ done_payload; done_line]]
          ++ [end_of_body]) =
     (mkStream Completed "", [OnEvent (chunk_event "Hi"); OnEvent done_event]).
Proof.
  split; [reflexivity|].
  apply (line_without_data_prefix_is_ignored Json.parse true 200
           [unlines [chunk_line "Hi"; ": keep-alive " ++ done_payload; done_line]]
           [chunk_line "Hi"] [done_line] (": keep-alive " ++ done_payload) "");
    try reflexivity; repeat constructor.
Defined.

Lemma read_failure_keeps_earlier_events_witness :
  JS.name Sample.network_error <> "AbortError"
  /\ Api.run Json.parse true streamChat
       (ok_response
          :: reads [chunk_line "Par" ++ JS.nl ++ "data: {"]
          ++ FromNet (ReadRejected Sample.network_error) :: [end_of_body]) =
     (mkStream Errored "data: {",
      [OnEvent (chunk_event "Par"); OnError Sample.network_error]).
Proof.
  split; [discriminate|].
  apply (read_failure_keeps_earlier_events Json.parse 200
           [chunk_line "Par" ++ JS.nl ++ "data: {"] [chunk_line "Par"] "data: {"
           Sample.network_error [end_of_body]);
    try reflexivity; try discriminate; repeat constructor.
Defined.

Lemma cancel_keeps_earlier_events_witness :
  join [chunk_line "Par" ++ JS.nl ++ "data: {"] =
    unlines [chunk_line "Par"] ++ "data: {"
  /\ Api.run Json.parse true streamChat
       (ok_response
          :: reads [chunk_line "Par" ++ JS.nl ++ "data: {"]
          ++ Cancel :: [FromNet (ReadValue hello_2)]) =
     (mkStream Cancelled "data: {", [OnEvent (chunk_event "Par")]).
Proof.
  split; [reflexivity|].
  apply (cancel_keeps_earlier_events Json.parse true 200
           [chunk_line "Par" ++ JS.nl ++ "data: {"] [chunk_line "Par"] "data: {"
           [FromNet (ReadValue hello_2)]);
    try reflexivity; repeat constructor.
Defined.

End TransportFacts.

(* ================================================================== *)
(** ** More on the chat session *)
(* ================================================================== *)

Module ChatFacts.

Import UseChat Text Scenario.

Lemma Forall2_compose {A : Type} (R1 R2 R3 : A -> A -> Prop) (l1 l2 l3 : list A) :
  (forall a b c, R1 a b -> R2 b c -> R3 a c) ->
  Forall2 R1 l1 l2 -> Forall2 R2 l2 l3 -> Forall2 R3 l1 l3.
Proof.
  intros H H12. revert l3.
  induction H12 as [|a b l1 l2 Hab _ IH]; intros l3 H23; inversion H23; subst.
  - constructor.
  - constructor; [now apply (H a b y) | now apply IH].
Qed.

Lemma onEvent_assistantId (c : Closure) (e : SSEEvent) (s : State) :
  assistantId (fst (onEvent c e s)) = assistantId c.
Proof. now destruct e. Qed.

(** One frame, as a relation between a message and what it becomes. *)
Lemma onEvent_streamed (c : Closure) (e : SSEEvent) (s : State) :
  Forall2 (streamed (assistantId c) [e])
    (messages s) (messages (snd (onEvent c e s))).
Proof.
  assert (Hmap : forall f : LocalMessage -> LocalMessage,
             (forall m, streamed (assistantId c) [e] m (f m)) ->
             Forall2 (streamed (assistantId c) [e]) (messages s) (map f (messages s))).
  { intros f Hf. now apply SessionFacts.map_Forall2. }
  destruct e as [data|data|].
  - cbn [onEvent snd]. rewrite <- (map_id (messages s)) at 2.
    apply Hmap. intros m. unfold streamed. cbn.
    repeat split; intros; try reflexivity; try discriminate.
    now rewrite append_nil_r.
  - rewrite SessionFacts.onEvent_chunk. cbn [snd setMessages messages].
    apply Hmap. intros m. unfold streamed, append_to.
    destruct (id m =? assistantId c) eqn:E.
    + apply String.eqb_eq in E. cbn.
      repeat split; intros; try reflexivity; try discriminate; try contradiction.
      now rewrite append_nil_r.
    + apply String.eqb_neq in E.
      repeat split; intros; try reflexivity; contradiction.
  - rewrite SessionFacts.onEvent_done.
    cbn [snd setMessages setLoading messages].
    apply Hmap. intros m. unfold streamed, finish.
    destruct (id m =? assistantId c) eqn:E.
    + apply String.eqb_eq in E. cbn.
      repeat split; intros; try reflexivity; try discriminate; try contradiction.
      now rewrite append_nil_r.
    + apply String.eqb_neq in E.
      repeat split; intros; try reflexivity; contradiction.
Qed.

Lemma streamed_cons (aid : string) (e : SSEEvent) (r : list SSEEvent)
    (m m1 m' : LocalMessage) :
  streamed aid [e] m m1 -> streamed aid r m1 m' -> streamed aid (e :: r) m m'.
Proof.
  intros (Hi1 & Hr1 & Ho1 & Ha1) (Hi2 & Hr2 & Ho2 & Ha2).
  unfold streamed. split; [congruence|]. split; [congruence|]. split.
  - intros Hne. rewrite (Ho1 Hne) in *. now apply Ho2.
  - intros Heq.
    destruct (Ha1 Heq) as (Hc1 & Hd1 & Hn1).
    destruct (Ha2 (eq_trans Hi1 Heq)) as (Hc2 & Hd2 & Hn2).
    split; [|split].
    + rewrite Hc2, Hc1, append_assoc. f_equal.
      destruct e; cbn [chunk_text]; try reflexivity.
      now rewrite append_nil_r.
    + intros Hd. destruct (existsb is_done r) eqn:Er; [now apply Hd2|].
      destruct (Hn2 eq_refl) as [Hs _]. rewrite Hs. apply Hd1.
      cbn [existsb] in Hd. rewrite Er, orb_false_r in Hd. cbn [existsb].
      now rewrite orb_false_r.
    + intros Hd. cbn [existsb] in Hd. apply orb_false_iff in Hd as [He Hr].
      assert (He1 : existsb is_done [e] = false) by (cbn; now rewrite He).
      destruct (Hn1 He1) as [Hs1 Hv1]. destruct (Hn2 Hr) as [Hs2 Hv2].
      split; congruence.
Qed.

Lemma streamed_nil (aid : string) (m : LocalMessage) : streamed aid [] m m.
Proof.
  unfold streamed. cbn.
  repeat split; intros; try reflexivity; try discriminate.
  now rewrite append_nil_r.
Qed.

Lemma Forall2_refl {A : Type} (R : A -> A -> Prop) (l : list A) :
  (forall x, R x x) -> Forall2 R l l.
Proof. intros H. induction l; constructor; auto. Qed.

Lemma onEvents_streamed (frames : list SSEEvent) : forall (c : Closure) (s : State),
  Forall2 (streamed (assistantId c) frames)
    (messages s) (messages (snd (onEvents c frames s))).
Proof.
  induction frames as [|e r IH]; intros c s.
  - cbn [onEvents snd]. apply Forall2_refl. apply streamed_nil.
  - cbn [onEvents].
    pose proof (onEvent_streamed c e s) as H1.
    pose proof (onEvent_assistantId c e s) as Ha.
    destruct (onEvent c e s) as [c1 s1]. cbn [fst snd] in H1, Ha.
    specialize (IH c1 s1). rewrite Ha in IH.
    exact (Forall2_compose _ _ _ _ _ _ (streamed_cons (assistantId c) e r) H1 IH).
Qed.

Lemma onEvents_rest (frames : list SSEEvent) : forall (c : Closure) (s : State),
  error (snd (onEvents c frames s)) = error s
  /\ abortRef (snd (onEvents c frames s)) = abortRef s
  /\ loading (snd (onEvents c frames s)) =
     (if existsb is_done frames then false else loading s)
  /\ assistantId (fst (onEvents c frames s)) = assistantId c.
Proof.
  induction frames as [|e r IH]; intros c s; [now repeat split|].
  cbn [onEvents existsb].
  assert (H1 : error (snd (onEvent c e s)) = error s
               /\ abortRef (snd (onEvent c e s)) = abortRef s
               /\ loading (snd (onEvent c e s)) =
                  (if is_done e then false else loading s)
               /\ assistantId (fst (onEvent c e s)) = assistantId c).
  { destruct e; now repeat split. }
  destruct (onEvent c e s) as [c1 s1]. cbn [fst snd] in H1.
  destruct H1 as (He1 & Hab1 & Hl1 & Ha1).
  destruct (IH c1 s1) as (He & Hab & Hl & Ha).
  repeat split; try congruence.
  rewrite Hl, Hl1. now destruct (is_done e), (existsb is_done r).
Qed.

(** X6.  The frames of a stream, in any number and order, never add,
    remove or reorder messages and never touch the error or [abortRef].
    The messages with the identifier of the assistant message grow by the
    chunk texts in their order, chunks after a done frame included, and
    are no longer flagged once a done frame came; all others stay as they
    are.  [loading] is cleared by a done frame and by nothing else. *)
Theorem frames_keep_the_message_sequence
    (c : Closure) (frames : list SSEEvent) (s : State) :
  Forall2 (streamed (assistantId c) frames)
    (messages s) (messages (snd (onEvents c frames s)))
  /\ length (messages (snd (onEvents c frames s))) = length (messages s)
  /\ error (snd (onEvents c frames s)) = error s
  /\ abortRef (snd (onEvents c frames s)) = abortRef s
  /\ loading (snd (onEvents c frames s)) =
     (if existsb is_done frames then false else loading s).
Proof.
  pose proof (onEvents_streamed frames c s) as H.
  destruct (onEvents_rest frames c s) as (He & Hab & Hl & _).
  repeat split; try assumption.
  symmetry. exact (Forall2_length H).
Qed.

(** X7.  Chunk frames compose: the chunks [t1], ..., [tn] one after the
    other leave the session in the state that the single chunk
    [t1 ++ ... ++ tn] leaves it in. *)
Theorem chunks_fuse (c : Closure) (texts : list string) (s : State) :
  snd (onEvents c (map SSEChunk texts) s) =
  snd (onEvent c (SSEChunk (join texts)) s).
Proof.
  assert (Hj : chunk_text (map SSEChunk texts) = join texts).
  { induction texts as [|t texts IH]; [reflexivity|].
    cbn [map chunk_text]. now rewrite IH. }
  rewrite (SessionFacts.onEvents_before_done _ c s
             (SessionFacts.existsb_is_done_chunks texts)).
  rewrite SessionFacts.onEvent_chunk. cbn [snd]. now rewrite Hj.
Qed.

(** X8.  The path without streaming.  With a knowledge base selected and a
    text that is not blank, [sendMessage(content, false)] appends the user
    message with the trimmed text, sets [loading], clears the error, starts
    no stream and leaves [abortRef] alone.  When the request resolves, the
    assistant message with the answer and its sources is appended and
    [loading] is cleared.  When it rejects, the user message stays, the
    error is recorded and [loading] is cleared. *)
Theorem send_without_streaming
    (k content : string) (now1 now2 now3 : N) (h : Handle) (s : State)
    (response : ChatResponse) (e : Thrown) :
  k <> "" ->
  JS.trim content <> "" ->
  exists s1 : State,
    sendMessage (Some k) content false now1 now2 h s =
      (s1, [SendMessage k {| rq_message := content; include_sources := Some true |}],
       None)
    /\ messages s1 = (messages s ++ [userMsg content now1])%list
    /\ loading s1 = true /\ error s1 = None /\ abortRef s1 = abortRef s
    /\ sendMessage_resolved response now3 s1 =
       {| messages :=
            (messages s
               ++ [userMsg content now1;
                   {| id := "assistant-" ++ JS.decimal now3; role := assistant;
                      content := rs_message response;
                      sources := rs_sources response; isStreaming := None |}])%list;
          loading := false; error := None; abortRef := abortRef s |}
    /\ messages (sendMessage_rejected e s1) = (messages s ++ [userMsg content now1])%list
    /\ loading (sendMessage_rejected e s1) = false
    /\ (exists msg, error (sendMessage_rejected e s1) = Some msg).
Proof.
  intros Hk Hc. apply String.eqb_neq in Hk, Hc.
  eexists. split.
  - unfold sendMessage, no_kb, is_empty. rewrite Hk, Hc. cbn [orb]. reflexivity.
  - cbn. repeat split.
    + unfold sendMessage_resolved, setLoading, setMessages, or_undefined. cbn.
      now rewrite <- app_assoc.
    + eexists. reflexivity.
Qed.

Lemma send_without_streaming_witness :
  "kb" <> ""
  /\ JS.trim " What is X? " <> ""
  /\ exists s1 : State,
       sendMessage (Some "kb") " What is X? " false 1 1 0 initial =
         (s1, [SendMessage "kb" {| rq_message := " What is X? ";
                                   include_sources := Some true |}], None)
       /\ messages s1 = (messages initial ++ [userMsg " What is X? " 1])%list.
Proof.
  split; [discriminate|]. split; [discriminate|].
  destruct (send_without_streaming "kb" " What is X? " 1 1 2 0 initial
              Sample.answer ThrownOther)
    as (s1 & Hsend & Hm & _); [discriminate | discriminate |].
  exists s1. split; assumption.
Defined.

(** X9.  Selecting a knowledge base asks for its history and changes
    nothing until the answer is there; the answer replaces the message
    sequence by the persisted messages, in their order and with their
    identifiers, roles and contents, none of them flagged streaming and
    none with sources; [loading], the error and [abortRef] stay as they
    were.  A failed request changes nothing, and deselecting the knowledge
    base empties the sequence at once. *)
Theorem history_replaces_the_messages
    (k' : string) (history : list ChatMessage) (s : State) :
  k' <> "" ->
  history_effect (Some k') s = (s, [GetChatHistory k'])
  /\ map id (messages (switched (Some k') history s)) = map cm_id history
  /\ map role (messages (switched (Some k') history s)) = map cm_role history
  /\ map content (messages (switched (Some k') history s)) = map cm_content history
  /\ Forall (fun m => isStreaming m = None /\ sources m = None)
       (messages (switched (Some k') history s))
  /\ loading (switched (Some k') history s) = loading s
  /\ error (switched (Some k') history s) = error s
  /\ abortRef (switched (Some k') history s) = abortRef s
  /\ loadHistory_rejected (fst (history_effect (Some k') s)) = s
  /\ history_effect None s = (setMessages (fun _ => []) s, []).
Proof.
  intros Hk. apply String.eqb_neq in Hk.
  assert (He : history_effect (Some k') s = (s, [GetChatHistory k'])).
  { unfold history_effect, no_kb. now rewrite Hk. }
  unfold switched. rewrite He.
  cbn [loadHistory_resolved setMessages messages loading error abortRef fst].
  rewrite !map_map. cbn [of_history id role content].
  repeat split.
  apply Forall_forall. intros m Hm. apply in_map_iff in Hm as [p [Hp _]].
  subst m. now split.
Qed.

Lemma history_replaces_the_messages_witness :
  "kb2" <> ""
  /\ map content (messages (switched (Some "kb2") plain_history asked_state)) =
     map cm_content plain_history
  /\ loading (switched (Some "kb2") plain_history asked_state) = loading asked_state.
Proof.
  split; [discriminate|].
  split; apply (history_replaces_the_messages "kb2" plain_history asked_state);
    discriminate.
Defined.

(** X10.  Switching the knowledge base does not abort the stream in flight
    and keeps [loading] and [abortRef].  The callbacks of that stream still
    act on the session afterwards: its done frame clears [loading], its
    error is recorded as the session error. *)
Theorem switch_leaves_the_stream_running
    (kbId' : option string) (history : list ChatMessage) (s : State)
    (c : Closure) (err : JS.Error) :
  (forall h, ~ In (Abort h) (snd (history_effect kbId' s)))
  /\ abortRef (switched kbId' history s) = abortRef s
  /\ loading (switched kbId' history s) = loading s
  /\ loading (snd (onEvent c SSEDone (switched kbId' history s))) = false
  /\ error (onError err (switched kbId' history s)) = Some (JS.message err)
  /\ loading (onError err (switched kbId' history s)) = false.
Proof.
  split.
  - intros h. unfold history_effect.
    destruct kbId' as [k'|]; [destruct (no_kb (Some k'))|]; cbn;
      intuition discriminate.
  - unfold switched, history_effect.
    destruct kbId' as [k'|]; [destruct (no_kb (Some k'))|]; cbn; repeat split.
Qed.

(** X11.  [stopStreaming] is idempotent: a second call changes nothing and
    aborts nothing.  Without a message flagged streaming, a call leaves the
    message sequence as it is. *)
Theorem stopStreaming_twice (s : State) :
  stopStreaming (fst (stopStreaming s)) = (fst (stopStreaming s), [])
  /\ (Forall (fun m => isStreaming m <> Some true) (messages s) ->
      messages (fst (stopStreaming s)) = messages s).
Proof.
  unfold stopStreaming. split.
  - destruct (abortRef s) as [h|] eqn:E; cbn [fst]; [reflexivity | now rewrite E].
  - intros Hf. destruct (abortRef s) as [h|]; [|reflexivity].
    cbn [fst setMessages messages setLoading set_abortRef].
    apply SessionFacts.map_unchanged. intros m Hm.
    rewrite Forall_forall in Hf. specialize (Hf m Hm).
    unfold unflag, truthy. destruct (isStreaming m) as [[|]|]; congruence.
Qed.

Lemma stopStreaming_twice_witness :
  Forall (fun m => isStreaming m <> Some true)
    (messages (snd (onEvent asked_closure SSEDone asked_state)))
  /\ messages (fst (stopStreaming (snd (onEvent asked_closure SSEDone asked_state)))) =
     messages (snd (onEvent asked_closure SSEDone asked_state)).
Proof.
  assert (H : Forall (fun m => isStreaming m <> Some true)
                (messages (snd (onEvent asked_closure SSEDone asked_state)))).
  { repeat constructor; discriminate. }
  split; [exact H|].
  exact (proj2 (stopStreaming_twice (snd (onEvent asked_closure SSEDone asked_state))) H).
Defined.

(** X12.  A submit that is accepted (nothing loading, a text that is not
    blank) clears the input, sets [loading] and starts one stream with the
    text as typed; any further submit is then a no-op, whatever was typed
    meanwhile, until [loading] is cleared. *)
Theorem submit_locks_until_done
    (k : string) (now1 now2 : N) (h : Handle) (cs : Chat.State) :
  JS.trim (Chat.input cs) <> "" ->
  k <> "" ->
  loading (Chat.chat cs) = false ->
  exists cs1 : Chat.State,
    Chat.handleSubmit k now1 now2 h cs =
      (cs1,
       [StreamChat
          (Api.stream_request k {| rq_message := Chat.input cs;
                                   include_sources := Some true |}) h])
    /\ Chat.input cs1 = ""
    /\ loading (Chat.chat cs1) = true
    /\ length (messages (Chat.chat cs1)) = length (messages (Chat.chat cs)) + 2
    /\ (forall typed k2 t1 t2 h2,
          Chat.handleSubmit k2 t1 t2 h2
            {| Chat.input := typed; Chat.chat := Chat.chat cs1 |} =
          ({| Chat.input := typed; Chat.chat := Chat.chat cs1 |}, [])).
Proof.
  intros Hi Hk Hl.
  unfold Chat.handleSubmit at 1. rewrite Hl.
  pose proof Hi as Hi'. apply String.eqb_neq in Hi'.
  unfold is_empty at 1. rewrite Hi'. cbn [orb].
  rewrite (SessionFacts.sendMessage_streaming k (Chat.input cs) now1 now2 h _ Hk Hi).
  eexists. split; [reflexivity|]. cbn [Chat.input Chat.chat loading messages].
  repeat split.
  - rewrite length_app. reflexivity.
  - intros typed k2 t1 t2 h2. unfold Chat.handleSubmit.
    cbn [Chat.chat Chat.input loading]. now rewrite orb_true_r.
Qed.

Lemma submit_locks_until_done_witness :
  JS.trim (Chat.input (Chat.mkState "What is X?" initial)) <> ""
  /\ "kb" <> ""
  /\ loading (Chat.chat (Chat.mkState "What is X?" initial)) = false
  /\ exists cs1 : Chat.State,
       Chat.handleSubmit "kb" 1 1 0 (Chat.mkState "What is X?" initial) =
         (cs1,
          [StreamChat
             (Api.stream_request "kb" {| rq_message := "What is X?";
                                         include_sources := Some true |}) 0])
       /\ Chat.input cs1 = "".
Proof.
  split; [discriminate|]. split; [discriminate|]. split; [reflexivity|].
  destruct (submit_locks_until_done "kb" 1 1 0 (Chat.mkState "What is X?" initial))
    as (cs1 & Hs & Hin & _); [discriminate | discriminate | reflexivity |].
  exists cs1. split; assumption.
Defined.

(** X13.  After the history was cleared, the frames of a stream still in
    flight never put a message back: the sequence stays empty, whatever
    arrives. *)
Theorem frames_after_clear_append_nothing
    (c : Closure) (frames : list SSEEvent) (s : State) :
  messages (snd (onEvents c frames (clearHistory_settled Resolved s))) = [].
Proof.
  pose proof (onEvents_streamed frames c (clearHistory_settled Resolved s)) as H.
  cbn [clearHistory_settled clearHistory_resolved setMessages messages] in H.
  now inversion H.
Qed.

End ChatFacts.

(* ================================================================== *)
(** ** The quiz hook *)
(* ================================================================== *)

Module QuizFacts.

Import UseQuiz.

Local Open Scope Z_scope.

(** *** Navigation *)

Lemma press_in_range (n : Nav) (s : State) (q : Quiz) :
  quiz (state s) = Some q ->
  0 <= currentIndex (state s) < Z.of_nat (length (qz_questions q)) ->
  quiz (state (press n s)) = Some q
  /\ 0 <= currentIndex (state (press n s)) < Z.of_nat (length (qz_questions q))
  /\ answers (state (press n s)) = answers (state s)
  /\ submitted (state (press n s)) = submitted (state s)
  /\ quizzes (press n s) = quizzes s
  /\ loading (press n s) = loading s
  /\ error (press n s) = error s.
Proof.
  intros Hq Hr. destruct n; cbn [press].
  - unfold nextQuestion, setState. cbn [state quizzes loading error].
    rewrite Hq. cbn [quiz currentIndex answers submitted].
    repeat split; try assumption; lia.
  - unfold prevQuestion, setState. cbn.
    repeat split; try assumption; lia.
Qed.

(** X14.  In a quiz with at least one question, the two navigation buttons,
    pressed in any order and number, keep [currentIndex] between 0 and the
    last index, so that there always is a current question; they change
    neither the quiz, nor the answers, nor [submitted]. *)
Theorem navigation_stays_in_range (ns : list Nav) : forall (s : State) (q : Quiz),
  quiz (state s) = Some q ->
  0 <= currentIndex (state s) < Z.of_nat (length (qz_questions q)) ->
  quiz (state (presses ns s)) = Some q
  /\ 0 <= currentIndex (state (presses ns s)) < Z.of_nat (length (qz_questions q))
  /\ currentQuestion (presses ns s) <> None
  /\ answers (state (presses ns s)) = answers (state s)
  /\ submitted (state (presses ns s)) = submitted (state s).
Proof.
  induction ns as [|n ns IH]; intros s q Hq Hr.
  - cbn [presses fold_left]. repeat split; try assumption; try lia.
    unfold currentQuestion. rewrite Hq.
    destruct (Z.ltb_spec (currentIndex (state s)) 0); [lia|].
    apply nth_error_Some. lia.
  - change (presses (n :: ns) s) with (presses ns (press n s)).
    destruct (press_in_range n s q Hq Hr) as (Hq1 & Hr1 & Ha1 & Hs1 & _).
    destruct (IH (press n s) q Hq1 Hr1) as (Hq2 & Hr2 & Hc2 & Ha2 & Hs2).
    repeat split; try assumption; try lia; congruence.
Qed.

Lemma navigation_stays_in_range_witness :
  quiz (state Sample.started) = Some Sample.quiz3
  /\ 0 <= currentIndex (state Sample.started)
       < Z.of_nat (length (qz_questions Sample.quiz3))
  /\ currentQuestion (presses [Next; Next; Next; Next; Prev] Sample.started) <> None.
Proof.
  split; [reflexivity|]. split; [cbn; lia|].
  apply (navigation_stays_in_range [Next; Next; Next; Next; Prev]
           Sample.started Sample.quiz3); [reflexivity | cbn; lia].
Defined.

(** X20.  A quiz without questions never has a current question, whatever
    is pressed after it was started, so the quiz page keeps showing the
    list; the forward button moves its index to -1. *)
Theorem empty_quiz_has_no_current_question (q : Quiz) (ns : list Nav) (s : State) :
  qz_questions q = [] ->
  currentQuestion (presses ns (startQuiz q s)) = None
  /\ currentIndex (state (nextQuestion (startQuiz q s))) = -1.
Proof.
  intros He. split.
  - assert (Hq : forall s', quiz (state s') = Some q ->
                            quiz (state (presses ns s')) = Some q).
    { induction ns as [|n ns IH]; intros s' Hs'; [exact Hs'|].
      change (presses (n :: ns) s') with (presses ns (press n s')).
      apply IH. destruct n; cbn [press].
      - unfold nextQuestion, setState. cbn [state]. now rewrite Hs'.
      - exact Hs'. }
    unfold currentQuestion. rewrite (Hq (startQuiz q s) eq_refl), He.
    destruct (currentIndex _ <? 0); [reflexivity|].
    now destruct (Z.to_nat _).
  - unfold nextQuestion, startQuiz, setState. cbn. now rewrite He.
Qed.

Lemma empty_quiz_has_no_current_question_witness :
  qz_questions (mkQuiz "quiz-0" "kb" "Empty" None [] "2025-01-01T00:00:00") = []
  /\ currentQuestion
       (presses [Next; Prev]
          (startQuiz (mkQuiz "quiz-0" "kb" "Empty" None [] "2025-01-01T00:00:00")
             initial)) = None.
Proof.
  split; [reflexivity|].
  apply (empty_quiz_has_no_current_question
           (mkQuiz "quiz-0" "kb" "Empty" None [] "2025-01-01T00:00:00")
           [Next; Prev] initial).
  reflexivity.
Defined.

Lemma State_eta (s : State) (st : QuizState) :
  st = state s ->
  {| quizzes := quizzes s; state := st; loading := loading s; error := error s |} = s.
Proof. intros ->. now destruct s. Qed.

(** X15.  Inside a quiz, going forward and back returns to the same state
    unless the last question was current, and going back and forward
    returns to it unless the first was; at the last question the forward
    button does nothing, at the first the backward one does nothing. *)
Theorem next_and_prev_are_inverse_inside (s : State) (q : Quiz) :
  quiz (state s) = Some q ->
  0 <= currentIndex (state s) < Z.of_nat (length (qz_questions q)) ->
  (currentIndex (state s) + 1 < Z.of_nat (length (qz_questions q)) ->
   prevQuestion (nextQuestion s) = s)
  /\ (0 < currentIndex (state s) -> nextQuestion (prevQuestion s) = s)
  /\ (currentIndex (state s) = Z.of_nat (length (qz_questions q)) - 1 ->
      nextQuestion s = s)
  /\ (currentIndex (state s) = 0 -> prevQuestion s = s).
Proof.
  intros Hq Hr.
  assert (Heta : forall i, i = currentIndex (state s) ->
             {| quiz := quiz (state s); currentIndex := i;
                answers := answers (state s); submitted := submitted (state s) |}
             = state s).
  { intros i ->. now destruct (state s). }
  repeat split; intros H.
  - unfold prevQuestion, nextQuestion, setState.
    cbn [state quizzes loading error]. rewrite Hq.
    cbn [quiz currentIndex answers submitted].
    apply State_eta. rewrite <- Hq. apply Heta. lia.
  - unfold prevQuestion, nextQuestion, setState.
    cbn [state quizzes loading error quiz]. rewrite Hq.
    cbn [quiz currentIndex answers submitted].
    apply State_eta. rewrite <- Hq. apply Heta. lia.
  - unfold nextQuestion, setState. rewrite Hq.
    apply State_eta. rewrite <- Hq. apply Heta. lia.
  - unfold prevQuestion, setState. apply State_eta. apply Heta. lia.
Qed.

Lemma next_and_prev_are_inverse_inside_witness :
  quiz (state Sample.started) = Some Sample.quiz3
  /\ 0 <= currentIndex (state Sample.started)
       < Z.of_nat (length (qz_questions Sample.quiz3))
  /\ currentIndex (state Sample.started) + 1
       < Z.of_nat (length (qz_questions Sample.quiz3))
  /\ prevQuestion (nextQuestion Sample.started) = Sample.started.
Proof.
  split; [reflexivity|]. split; [cbn; lia|]. split; [cbn; lia|].
  apply (next_and_prev_are_inverse_inside Sample.started Sample.quiz3);
    [reflexivity | cbn; lia | cbn; lia].
Defined.

(** *** Answers *)

Lemma lookup_assign_same (k v : string) (a : Answers) :
  lookup k (assign k v a) = Some v.
Proof.
  induction a as [|[k' v'] a IH]; cbn.
  - now rewrite String.eqb_refl.
  - destruct (k' =? k)%string eqn:E; cbn.
    + now rewrite String.eqb_refl.
    + now rewrite E.
Qed.

Lemma lookup_assign_other (k k' v : string) (a : Answers) :
  k' <> k -> lookup k' (assign k v a) = lookup k' a.
Proof.
  intros Hne. induction a as [|[k1 v1] a IH]; cbn.
  - apply String.eqb_neq in Hne. rewrite String.eqb_sym. now rewrite Hne.
  - destruct (k1 =? k)%string eqn:E; cbn.
    + apply String.eqb_eq in E. subst k1.
      apply not_eq_sym, String.eqb_neq in Hne. now rewrite !Hne.
    + destruct (k1 =? k')%string; [reflexivity | exact IH].
Qed.

Lemma keys_assign (k v : string) (a : Answers) :
  keys (assign k v a) =
  match lookup k a with
  | Some _ => keys a
  | None => (keys a ++ [k])%list
  end.
Proof.
  induction a as [|[k1 v1] a IH]; cbn; [reflexivity|].
  destruct (k1 =? k)%string eqn:E; cbn.
  - apply String.eqb_eq in E. now subst k1.
  - unfold keys in IH. rewrite IH. now destruct (lookup k a).
Qed.

(** X16.  [answerQuestion] stores the answer under the question: reading it
    back gives that answer, the answers to other questions are what they
    were, and the number of answered questions grows by one for a question
    not answered before and stays for one answered again.  Nothing else of
    the state changes. *)
Theorem answer_is_stored (questionId answer : string) (s : State) :
  lookup questionId (answers (state (answerQuestion questionId answer s))) = Some answer
  /\ (forall other, other <> questionId ->
        lookup other (answers (state (answerQuestion questionId answer s))) =
        lookup other (answers (state s)))
  /\ Z.of_nat (length (keys (answers (state (answerQuestion questionId answer s))))) =
     Z.of_nat (length (keys (answers (state s))))
     + match lookup questionId (answers (state s)) with
       | Some _ => 0
       | None => 1
       end
  /\ quiz (state (answerQuestion questionId answer s)) = quiz (state s)
  /\ currentIndex (state (answerQuestion questionId answer s)) = currentIndex (state s)
  /\ submitted (state (answerQuestion questionId answer s)) = submitted (state s).
Proof.
  unfold answerQuestion, setState. cbn [state answers quiz currentIndex submitted].
  repeat split.
  - apply lookup_assign_same.
  - intros other Hne. now apply lookup_assign_other.
  - rewrite keys_assign. destruct (lookup questionId (answers (state s))).
    + lia.
    + rewrite length_app. cbn [length]. lia.
Qed.

Lemma answer_is_stored_witness :
  "q2" <> "q1"
  /\ lookup "q2" (answers (state (answerQuestion "q1" "True"
                                    (answerQuestion "q2" "False" Sample.started)))) =
     lookup "q2" (answers (state (answerQuestion "q2" "False" Sample.started))).
Proof.
  split; [discriminate|].
  apply (answer_is_stored "q1" "True" (answerQuestion "q2" "False" Sample.started)).
  discriminate.
Defined.

(** *** The score *)

Lemma fold_count (a : Answers) (qs : list QuizQuestion) : forall acc : Z,
  fold_left
    (fun correct question =>
       match lookup (qq_id question) a with
       | Some v => if (v =? qq_correct_answer question)%string
                   then correct + 1 else correct
       | None => correct
       end) qs acc =
  acc + Z.of_nat (length (filter (is_right a) qs)).
Proof.
  induction qs as [|x qs IH]; intros acc; cbn [fold_left filter length].
  - lia.
  - rewrite IH. unfold is_right at 2.
    destruct (lookup (qq_id x) a) as [v|]; [|lia].
    destruct (v =? qq_correct_answer x)%string; cbn [length]; lia.
Qed.

Lemma count_correct_filter (a : Answers) (qs : list QuizQuestion) :
  count_correct a qs = Z.of_nat (length (filter (is_right a) qs)).
Proof. unfold count_correct. now rewrite fold_count. Qed.

Lemma filter_all {A : Type} (f : A -> bool) (l : list A) :
  length (filter f l) = length l <-> Forall (fun x => f x = true) l.
Proof.
  induction l as [|x l IH]; cbn [filter length].
  - split; [constructor | reflexivity].
  - pose proof (filter_length_le f l) as Hle.
    destruct (f x) eqn:E; cbn [length]; split; intros H.
    + constructor; [exact E|]. apply IH. lia.
    + inversion H; subst. f_equal. now apply IH.
    + lia.
    + inversion H; subst. congruence.
Qed.

(** X17.  [getScore] answers only for a submitted quiz.  Then [total] is the
    number of questions and [correct] lies between 0 and [total]; a
    question without an answer never counts; and [correct] equals [total]
    exactly when every question has its correct answer stored. *)
Theorem score_is_bounded (s : State) (sc : Score) :
  getScore s = Some sc ->
  exists q : Quiz,
    quiz (state s) = Some q
    /\ submitted (state s) = true
    /\ total sc = Z.of_nat (length (qz_questions q))
    /\ 0 <= correct sc <= total sc
    /\ correct sc =
       Z.of_nat (length (filter (is_right (answers (state s))) (qz_questions q)))
    /\ (correct sc = total sc <->
        Forall (fun x => lookup (qq_id x) (answers (state s)) =
                         Some (qq_correct_answer x)) (qz_questions q)).
Proof.
  unfold getScore. intros H.
  destruct (quiz (state s)) as [q|]; [|discriminate].
  destruct (submitted (state s)); [|discriminate].
  cbn [negb] in H. injection H as <-. cbn [correct total].
  exists q. rewrite count_correct_filter.
  pose proof (filter_length_le (is_right (answers (state s))) (qz_questions q)) as Hle.
  repeat split; try lia.
  - intros Heq. apply Nat2Z.inj in Heq. apply filter_all in Heq.
    eapply Forall_impl; [|exact Heq]. intros x Hx. cbn in Hx.
    unfold is_right in Hx. destruct (lookup (qq_id x) (answers (state s))); [|discriminate].
    apply String.eqb_eq in Hx. now subst.
  - intros Hall. f_equal. apply filter_all.
    eapply Forall_impl; [|exact Hall]. intros x Hx. cbn in Hx.
    unfold is_right. rewrite Hx. apply String.eqb_refl.
Qed.

Lemma score_is_bounded_witness :
  getScore (submitQuiz (answerQuestion "q1" "True" Sample.started)) =
    Some {| correct := 1; total := 3 |}
  /\ 0 <= correct {| correct := 1; total := 3 |} <= total {| correct := 1; total := 3 |}.
Proof.
  split; [reflexivity|].
  destruct (score_is_bounded (submitQuiz (answerQuestion "q1" "True" Sample.started))
              {| correct := 1; total := 3 |} eq_refl)
    as (q & _ & _ & _ & Hb & _).
  exact Hb.
Defined.

(** *** A whole run through a quiz *)

Lemma assign_fresh (k v : string) (a : Answers) :
  ~ In k (keys a) -> assign k v a = (a ++ [(k, v)])%list.
Proof.
  induction a as [|[k1 v1] a IH]; intros Hn; cbn; [reflexivity|].
  cbn in Hn. destruct (k1 =? k)%string eqn:E.
  - apply String.eqb_eq in E. tauto.
  - rewrite IH; [reflexivity | tauto].
Qed.

Lemma answer_all_answers (pick : QuizQuestion -> string) (qs : list QuizQuestion) :
  forall s : State,
    state (answer_all pick qs s) =
    {| quiz := quiz (state s); currentIndex := currentIndex (state s);
       answers := fold_left (fun a x => assign (qq_id x) (pick x) a) qs
                    (answers (state s));
       submitted := submitted (state s) |}.
Proof.
  induction qs as [|x qs IH]; intros s; cbn [answer_all fold_left].
  - now destruct (state s).
  - change (fold_left (fun s0 q => answerQuestion (qq_id q) (pick q) s0) qs
              (answerQuestion (qq_id x) (pick x) s))
      with (answer_all pick qs (answerQuestion (qq_id x) (pick x) s)).
    rewrite IH. reflexivity.
Qed.

Lemma fold_assign_fresh (pick : QuizQuestion -> string) (qs : list QuizQuestion) :
  forall a : Answers,
    NoDup (map qq_id qs) ->
    (forall x, In x qs -> ~ In (qq_id x) (keys a)) ->
    fold_left (fun a x => assign (qq_id x) (pick x) a) qs a =
    (a ++ map (fun x => (qq_id x, pick x)) qs)%list.
Proof.
  induction qs as [|x qs IH]; intros a Hnd Hfresh; cbn [fold_left map].
  - now rewrite app_nil_r.
  - inversion Hnd as [|? ? Hx Hnd']; subst.
    rewrite (assign_fresh _ _ a (Hfresh x (or_introl eq_refl))).
    rewrite IH; [now rewrite <- app_assoc | exact Hnd' |].
    intros y Hy Hin. unfold keys in Hin. rewrite map_app in Hin.
    apply in_app_or in Hin as [Hin | [Hin | []]].
    + exact (Hfresh y (or_intror Hy) Hin).
    + cbn in Hin. apply Hx. rewrite Hin. now apply in_map.
Qed.

Lemma lookup_picked (pick : QuizQuestion -> string) (qs : list QuizQuestion)
    (x : QuizQuestion) :
  NoDup (map qq_id qs) -> In x qs ->
  lookup (qq_id x) (map (fun y => (qq_id y, pick y)) qs) = Some (pick x).
Proof.
  induction qs as [|y qs IH]; intros Hnd Hin; [destruct Hin|].
  inversion Hnd as [|? ? Hy Hnd']; subst. cbn [map lookup].
  destruct Hin as [-> | Hin].
  - now rewrite String.eqb_refl.
  - destruct (qq_id y =? qq_id x)%string eqn:E.
    + apply String.eqb_eq in E. exfalso. apply Hy. rewrite E. now apply in_map.
    + now apply IH.
Qed.

(** X18.  A quiz whose questions have pairwise different identifiers,
    started, every question answered once, then submitted: the score
    counts exactly the questions whose answer equals the correct answer,
    out of all questions, and the submit button of [QuizView] was enabled.
    So answering every question correctly scores all of them. *)
Theorem answered_quiz_is_scored
    (q : Quiz) (pick : QuizQuestion -> string) (s : State) :
  NoDup (map qq_id (qz_questions q)) ->
  let s1 := answer_all pick (qz_questions q) (startQuiz q s) in
  QuizView.submit_disabled q (answers (state s1)) = false
  /\ getScore (submitQuiz s1) =
     Some {| correct :=
               Z.of_nat (length (filter (fun x => (pick x =? qq_correct_answer x)%string)
                                   (qz_questions q)));
             total := Z.of_nat (length (qz_questions q)) |}
  /\ getScore (submitQuiz (answer_all qq_correct_answer (qz_questions q)
                             (startQuiz q s))) =
     Some {| correct := Z.of_nat (length (qz_questions q));
             total := Z.of_nat (length (qz_questions q)) |}.
Proof.
  intros Hnd.
  assert (Hst : forall p,
             state (answer_all p (qz_questions q) (startQuiz q s)) =
             {| quiz := Some q; currentIndex := 0;
                answers := map (fun x => (qq_id x, p x)) (qz_questions q);
                submitted := false |}).
  { intros p. rewrite answer_all_answers. cbn [startQuiz setState state quiz
      currentIndex answers submitted].
    rewrite (fold_assign_fresh p (qz_questions q) [] Hnd); [reflexivity|].
    intros x _ []. }
  assert (Hscore : forall p,
             getScore (submitQuiz (answer_all p (qz_questions q) (startQuiz q s))) =
             Some {| correct :=
                       Z.of_nat (length (filter (fun x => (p x =? qq_correct_answer x)%string)
                                           (qz_questions q)));
                     total := Z.of_nat (length (qz_questions q)) |}).
  { intros p. unfold getScore, submitQuiz, setState. cbn [state]. rewrite Hst.
    cbn [quiz submitted answers negb]. rewrite count_correct_filter.
    do 4 f_equal. apply filter_ext_in. intros x Hx. unfold is_right.
    now rewrite (lookup_picked p (qz_questions q) x Hnd Hx). }
  cbv zeta. repeat split.
  - rewrite Hst. cbn [answers]. unfold QuizView.submit_disabled, keys.
    rewrite !length_map. apply Nat.ltb_irrefl.
  - apply Hscore.
  - rewrite Hscore. do 3 f_equal. apply filter_all.
    apply Forall_forall. intros x _. apply String.eqb_refl.
Qed.

Lemma answered_quiz_is_scored_witness :
  NoDup (map qq_id (qz_questions Sample.quiz3))
  /\ getScore (submitQuiz (answer_all (fun _ => "True") (qz_questions Sample.quiz3)
                             (startQuiz Sample.quiz3 initial))) =
     Some {| correct := 2; total := 3 |}.
Proof.
  assert (Hnd : NoDup (map qq_id (qz_questions Sample.quiz3))).
  { cbn. repeat constructor; cbn; intuition discriminate. }
  split; [exact Hnd|].
  apply (answered_quiz_is_scored Sample.quiz3 (fun _ => "True") initial Hnd).
Defined.

(** *** The list of quizzes *)

(** X19.  After a quiz was deleted on the server, the list holds the
    quizzes with another identifier, in the order they had, and none with
    that identifier; the quiz in progress is reset exactly when the one
    seen in progress at the call is the deleted one.  When the deletion
    fails, the list and the quiz in progress stay and an error is
    recorded. *)
Theorem deleted_quiz_leaves_the_list
    (captured : option string) (quizId : string) (e : UseChat.Thrown) (s : State) :
  quizzes (deleteQuiz_resolved captured quizId s) =
    filter (fun x => negb (qz_id x =? quizId)%string) (quizzes s)
  /\ (forall x, In x (quizzes (deleteQuiz_resolved captured quizId s)) ->
        qz_id x <> quizId)
  /\ (forall x, In x (quizzes s) -> qz_id x <> quizId ->
        In x (quizzes (deleteQuiz_resolved captured quizId s)))
  /\ (captured = Some quizId -> state (deleteQuiz_resolved captured quizId s) = no_quiz)
  /\ (captured <> Some quizId ->
      state (deleteQuiz_resolved captured quizId s) = state s)
  /\ quizzes (deleteQuiz_rejected e s) = quizzes s
  /\ state (deleteQuiz_rejected e s) = state s
  /\ (exists msg, error (deleteQuiz_rejected e s) = Some msg).
Proof.
  assert (Hq : quizzes (deleteQuiz_resolved captured quizId s) =
               filter (fun x => negb (qz_id x =? quizId)%string) (quizzes s)).
  { unfold deleteQuiz_resolved. destruct captured as [i|]; [|reflexivity].
    now destruct (i =? quizId)%string. }
  rewrite Hq. repeat split.
  - intros x Hx. apply filter_In in Hx as [_ Hx].
    apply negb_true_iff, String.eqb_neq in Hx. exact Hx.
  - intros x Hx Hne. apply filter_In. split; [exact Hx|].
    now apply negb_true_iff, String.eqb_neq.
  - intros ->. unfold deleteQuiz_resolved. now rewrite String.eqb_refl.
  - intros Hne. unfold deleteQuiz_resolved. destruct captured as [i|]; [|reflexivity].
    destruct (i =? quizId)%string eqn:E; [|reflexivity].
    apply String.eqb_eq in E. congruence.
  - eexists. reflexivity.
Qed.

Lemma deleted_quiz_leaves_the_list_witness :
  Some "quiz-1" = Some "quiz-1"
  /\ state (deleteQuiz_resolved (Some "quiz-1") "quiz-1" Sample.started) = no_quiz.
Proof.
  split; [reflexivity|].
  apply (deleted_quiz_leaves_the_list (Some "quiz-1") "quiz-1" UseChat.ThrownOther
           Sample.started).
  reflexivity.
Defined.

(** [handleGenerate] of the quiz page: when the quiz is generated it
    becomes the first of the list and the quiz in progress, at its first
    question, without answers and not submitted, and [loading] is
    cleared; when the generation fails the list and the quiz in progress
    stay, an error is recorded and [loading] is cleared. *)
Theorem generated_quiz_is_started (q : Quiz) (e : UseChat.Thrown) (s : State) :
  QuizPage.handleGenerate_settled (generateQuiz_resolved q s) =
    {| quizzes := q :: quizzes s;
       state := {| quiz := Some q; currentIndex := 0; answers := [];
                   submitted := false |};
       loading := false; error := error s |}
  /\ quizzes (QuizPage.handleGenerate_settled (generateQuiz_rejected e s)) = quizzes s
  /\ state (QuizPage.handleGenerate_settled (generateQuiz_rejected e s)) = state s
  /\ loading (QuizPage.handleGenerate_settled (generateQuiz_rejected e s)) = false
  /\ (exists msg,
        error (QuizPage.handleGenerate_settled (generateQuiz_rejected e s)) = Some msg).
Proof.
  repeat split. eexists. reflexivity.
Qed.

End QuizFacts.

(* ================================================================== *)
(** ** The upload component and the size of a document *)
(* ================================================================== *)

Module UploadFacts.

Import FileUpload.

Lemma split_dot_free (s : string) :
  has_dot s = false -> JS.split "." s = [s].
Proof.
  induction s as [|c s IH]; [reflexivity|].
  cbn [has_dot JS.split]. intros H. apply orb_false_iff in H as [Hc Hs].
  rewrite Hc, (IH Hs). reflexivity.
Qed.

Lemma split_two_segments (stem ext : string) :
  exists p p2 ps, JS.split "." (stem ++ "." ++ ext) = p :: p2 :: ps.
Proof.
  induction stem as [|c stem (p & p2 & ps & IH)].
  - cbn. pose proof (Text.split_not_nil "." ext) as Hn.
    destruct (JS.split "." ext) as [|x r]; [congruence|]. now exists "", x, r.
  - change (String c stem ++ "." ++ ext) with (String c (stem ++ "." ++ ext)).
    cbn [JS.split]. rewrite IH. destruct (Ascii.eqb c ".").
    + now exists "", p, (p2 :: ps).
    + now exists (String c p), p2, ps.
Qed.

Lemma last_segment (stem ext : string) (d : string) :
  has_dot ext = false -> last (JS.split "." (stem ++ "." ++ ext)) d = ext.
Proof.
  intros Hd. induction stem as [|c stem IH].
  - cbn. rewrite (split_dot_free ext Hd). reflexivity.
  - change (String c stem ++ "." ++ ext) with (String c (stem ++ "." ++ ext)).
    cbn [JS.split].
    destruct (split_two_segments stem ext) as (p & p2 & ps & E).
    rewrite E in *. destruct (Ascii.eqb c ".").
    + rewrite Text.last_cons_nonempty by discriminate. exact IH.
    + rewrite !Text.last_cons_nonempty in * by discriminate. exact IH.
Qed.

Lemma pop_last (l : list string) (d : string) :
  l <> [] -> snd (JS.pop l) = Some (last l d).
Proof.
  destruct l as [|x r]; [congruence|]. intros _. cbn [JS.pop snd]. f_equal.
  destruct r as [|y r]; [reflexivity|].
  rewrite (Text.last_cons_nonempty x (y :: r) d) by discriminate.
  apply Text.last_default. discriminate.
Qed.

Lemma extension_of (stem ext ty : string) :
  has_dot ext = false ->
  extension {| name := stem ++ "." ++ ext; type := ty |} = "." ++ toLowerCase ext
  /\ extension {| name := ext; type := ty |} = "." ++ toLowerCase ext.
Proof.
  intros Hd. unfold extension. cbn [name]. split.
  - rewrite (pop_last _ "" (Text.split_not_nil "." _)).
    now rewrite (last_segment stem ext "" Hd).
  - now rewrite (split_dot_free ext Hd).
Qed.

(** X21.  [validateFile] looks at the text after the last dot of the name,
    in lower case, and at the type.  A file whose last segment is one of
    the accepted extensions in any mix of cases is accepted whatever its
    type, and so is a file whose whole name, without any dot, is such a
    word; a file of an accepted type is accepted whatever its name; and
    with another type and another last segment the file is refused, also
    when an accepted extension stands before the last dot. *)
Theorem validateFile_reads_the_last_segment (stem ext ty : string) :
  has_dot ext = false ->
  (includes ACCEPTED_EXTENSIONS ("." ++ toLowerCase ext) = true ->
   validateFile {| name := stem ++ "." ++ ext; type := ty |} = true
   /\ validateFile {| name := ext; type := ty |} = true)
  /\ (includes ACCEPTED_TYPES ty = true ->
      forall nm, validateFile {| name := nm; type := ty |} = true)
  /\ (includes ACCEPTED_TYPES ty = false ->
      includes ACCEPTED_EXTENSIONS ("." ++ toLowerCase ext) = false ->
      validateFile {| name := stem ++ "." ++ ext; type := ty |} = false).
Proof.
  intros Hd. destruct (extension_of stem ext ty Hd) as [E1 E2].
  unfold validateFile. cbn [type]. rewrite E1, E2. repeat split.
  - rewrite H. apply orb_true_r.
  - rewrite H. apply orb_true_r.
  - intros Ht nm. now rewrite Ht.
  - intros Ht He. now rewrite Ht, He.
Qed.

Lemma validateFile_reads_the_last_segment_witness :
  has_dot "PdF" = false
  /\ includes ACCEPTED_EXTENSIONS ("." ++ toLowerCase "PdF") = true
  /\ validateFile {| name := "notes.v2" ++ "." ++ "PdF"; type := "" |} = true
  /\ validateFile {| name := "PdF"; type := "" |} = true.
Proof.
  split; [reflexivity|]. split; [reflexivity|].
  apply (validateFile_reads_the_last_segment "notes.v2" "PdF" ""); reflexivity.
Defined.

Lemma handle_progress (e : Event) (s : State) :
  progress s = 0%Z -> progress (fst (handle e s)) = 0%Z.
Proof.
  intros H. destruct e as [[f|]| | |[f|]|]; cbn; try exact H; try reflexivity;
    unfold handleFile; destruct (validateFile f); cbn; (exact H || reflexivity).
Qed.

Lemma handle_valid (e : Event) (s : State) (f : File) :
  In (OnUpload f) (snd (handle e s)) -> validateFile f = true.
Proof.
  assert (Hf : forall g s', In (OnUpload f) (snd (handleFile g s')) ->
                            validateFile f = true).
  { intros g s'. unfold handleFile. destruct (validateFile g) eqn:E; cbn.
    - intros [H|[]]. now injection H as <-.
    - intros [H|[]]. discriminate. }
  destruct e as [[g|]| | |[g|]|]; cbn [handle handleDrop handleChange snd];
    try (intros []); apply Hf.
Qed.

(** X22.  Whatever is dropped, chosen or finished, in any order: the
    component starts an upload only for a file that [validateFile]
    accepts, and its [progress] is 0 all the time, since nothing ever
    sets it to another value. *)
Theorem upload_only_valid_files_and_no_progress (es : list Event) :
  forall s : State,
    (forall f, In (OnUpload f) (snd (run es s)) -> validateFile f = true)
    /\ (progress s = 0%Z -> progress (fst (run es s)) = 0%Z).
Proof.
  induction es as [|e es IH]; intros s.
  - split; [intros f [] | trivial].
  - cbn [run].
    pose proof (handle_valid e s) as Hv. pose proof (handle_progress e s) as Hp.
    destruct (handle e s) as [s1 x1]. cbn [fst snd] in Hv, Hp.
    destruct (IH s1) as [IHv IHp].
    destruct (run es s1) as [s2 x2]. cbn [fst snd] in *.
    split.
    + intros f Hin. apply in_app_or in Hin as [Hin|Hin]; [now apply Hv | now apply IHv].
    + intros H0. apply IHp. now apply Hp.
Qed.

Lemma upload_only_valid_files_and_no_progress_witness :
  progress initial = 0%Z
  /\ progress (fst (run [DragOver; Drop (Some {| name := "a.pdf"; type := "" |});
                         UploadSettled; Change (Some {| name := "a.exe"; type := "" |})]
                      initial)) = 0%Z.
Proof.
  split; [reflexivity|].
  apply (upload_only_valid_files_and_no_progress
           [DragOver; Drop (Some {| name := "a.pdf"; type := "" |});
            UploadSettled; Change (Some {| name := "a.exe"; type := "" |})] initial).
  reflexivity.
Defined.

End UploadFacts.

Module DocumentFacts.

Import DocumentList.

Local Open Scope Z_scope.

Lemma nearest_tenth (b den : Z) :
  0 < den -> (den / 2) * 2 = den ->
  let n := (10 * b + den / 2) / den in
  - den < 2 * (den * n - 10 * b) <= den.
Proof.
  intros Hden Heven. cbv zeta.
  pose proof (Z.div_mod (10 * b + den / 2) den ltac:(lia)) as Hdm.
  pose proof (Z.mod_pos_bound (10 * b + den / 2) den Hden) as Hm.
  lia.
Qed.

(** X23.  The size shown for a document, for sizes that are integers below
    2^53 (the integers a number holds exactly).  No size and the size 0 are shown
    as [Unknown size]; a size below 1024 is shown in bytes.  From 1024 on
    the size is shown in KB, and from 1024 * 1024 on in MB, as a number
    with one decimal that is the nearest tenth of the unit, so within a
    twentieth of the unit of the size; in KB that number goes from 1.0 up
    to 1024.0. *)
Theorem formatFileSize_shows_the_nearest_tenth (b : Z) :
  0 < b < 2 ^ 53 ->
  formatFileSize None = "Unknown size"%string
  /\ formatFileSize (Some 0) = "Unknown size"%string
  /\ (b < 1024 -> formatFileSize (Some b) = (decimalZ b ++ " B")%string)
  /\ (1024 <= b < 1024 * 1024 ->
      exists n, formatFileSize (Some b) =
                  (decimalZ (n / 10) ++ "." ++ decimalZ (n mod 10) ++ " KB")%string
                /\ 0 <= n mod 10 <= 9
                /\ 10 <= n <= 10240
                /\ - 1024 < 2 * (1024 * n - 10 * b) <= 1024)
  /\ (1024 * 1024 <= b ->
      exists n, formatFileSize (Some b) =
                  (decimalZ (n / 10) ++ "." ++ decimalZ (n mod 10) ++ " MB")%string
                /\ 0 <= n mod 10 <= 9
                /\ 10 <= n
                /\ - (1024 * 1024) < 2 * (1024 * 1024 * n - 10 * b) <= 1024 * 1024).
Proof.
  intros [Hb _].
  assert (H0 : (b =? 0) = false) by (apply Z.eqb_neq; lia).
  split; [reflexivity|]. split; [reflexivity|]. split; [|split].
  - intros Hlt. unfold formatFileSize. rewrite H0.
    now rewrite (proj2 (Z.ltb_lt b 1024) Hlt).
  - intros [Hlo Hhi]. unfold formatFileSize. rewrite H0.
    rewrite (proj2 (Z.ltb_ge b 1024) Hlo), (proj2 (Z.ltb_lt b (1024 * 1024)) Hhi).
    exists ((10 * b + 1024 / 2) / 1024). split; [|split; [|split]].
    + unfold toFixed1. now rewrite !Text.append_assoc.
    + pose proof (Z.mod_pos_bound ((10 * b + 1024 / 2) / 1024) 10 ltac:(lia)). lia.
    + pose proof (nearest_tenth b 1024 ltac:(lia) eq_refl) as Hn. cbv zeta in Hn. lia.
    + exact (nearest_tenth b 1024 ltac:(lia) eq_refl).
  - intros Hlo. unfold formatFileSize. rewrite H0.
    rewrite (proj2 (Z.ltb_ge b 1024) ltac:(lia)).
    rewrite (proj2 (Z.ltb_ge b (1024 * 1024)) Hlo).
    exists ((10 * b + 1024 * 1024 / 2) / (1024 * 1024)). split; [|split; [|split]].
    + unfold toFixed1. now rewrite !Text.append_assoc.
    + pose proof (Z.mod_pos_bound ((10 * b + 1024 * 1024 / 2) / (1024 * 1024)) 10
                    ltac:(lia)). lia.
    + pose proof (nearest_tenth b (1024 * 1024) ltac:(lia) eq_refl) as Hn.
      cbv zeta in Hn. lia.
    + exact (nearest_tenth b (1024 * 1024) ltac:(lia) eq_refl).
Qed.

Lemma formatFileSize_shows_the_nearest_tenth_witness :
  0 < 1048575 < 2 ^ 53
  /\ formatFileSize (Some 1048575) = "1024.0 KB"%string
  /\ formatFileSize (Some 1536) = "1.5 KB"%string
  /\ (1048575 < 1024 ->
      formatFileSize (Some 1048575) = (decimalZ 1048575 ++ " B")%string).
Proof.
  split; [lia|]. split; [reflexivity|]. split; [reflexivity|].
  apply (formatFileSize_shows_the_nearest_tenth 1048575). lia.
Defined.

End DocumentFacts.

(* ================================================================== *)
(** ** The list of knowledge bases and the selection *)
(* ================================================================== *)

Module AppFacts.

Import App UseKnowledgeBases.

Lemma find_filter {A : Type} (f g : A -> bool) (l : list A) :
  (forall x, f x = true -> g x = true) -> find f (filter g l) = find f l.
Proof.
  intros H. induction l as [|x l IH]; [reflexivity|].
  cbn [filter find]. destruct (g x) eqn:Eg.
  - cbn [find]. now rewrite IH.
  - destruct (f x) eqn:Ef; [|exact IH]. rewrite (H x Ef) in Eg. discriminate.
Qed.

(** X24.  After a knowledge base was deleted, whatever was selected: the
    knowledge base shown, if there is one, was in the list and is not
    the deleted one; and when another knowledge base was selected, it stays
    selected and shown. *)
Theorem deleted_knowledge_base_is_not_shown
    (captured : option string) (i : string) (s : App.State) :
  (forall kb, selectedKb (handleDeleteKb_resolved captured i s) = Some kb ->
              kb_id kb <> i /\ In kb (knowledgeBases (kbs s)))
  /\ (forall kb, In kb (knowledgeBases (kbs (handleDeleteKb_resolved captured i s))) <->
                 In kb (knowledgeBases (kbs s)) /\ kb_id kb <> i)
  /\ (captured = selectedKbId s -> selectedKbId s <> Some i ->
      selectedKb (handleDeleteKb_resolved captured i s) = selectedKb s).
Proof.
  assert (Hin : forall kb,
             In kb (knowledgeBases (kbs (handleDeleteKb_resolved captured i s))) <->
             In kb (knowledgeBases (kbs s)) /\ kb_id kb <> i).
  { intros kb. cbn. rewrite filter_In, negb_true_iff, String.eqb_neq. tauto. }
  split; [|split].
  - intros kb Hf. apply find_some in Hf as [Hk _]. apply Hin in Hk. tauto.
  - exact Hin.
  - intros -> Hne. unfold selectedKb. cbn [handleDeleteKb_resolved selectedKbId kbs
      deleteKnowledgeBase_resolved setKnowledgeBases knowledgeBases].
    destruct (selectedKbId s) as [c|] eqn:Es.
    + destruct (c =? i)%string eqn:E.
      * apply String.eqb_eq in E. congruence.
      * apply find_filter. intros x Hx. apply String.eqb_eq in Hx.
        apply negb_true_iff. rewrite Hx. exact E.
    + apply find_filter. discriminate.
Qed.

Lemma deleted_knowledge_base_is_not_shown_witness :
  let a := mkKnowledgeBase "a" "A" None "2025-01-01" "2025-01-01" in
  let b := mkKnowledgeBase "b" "B" None "2025-01-01" "2025-01-01" in
  let s := {| selectedKbId := Some "b"; showCreateModal := false;
              connected := Some true;
              kbs := {| knowledgeBases := [a; b]; loading := false; error := None |} |} in
  Some "b" = selectedKbId s
  /\ selectedKbId s <> Some "a"
  /\ selectedKb (handleDeleteKb_resolved (Some "b") "a" s) = selectedKb s.
Proof.
  cbv zeta. split; [reflexivity|]. split; [discriminate|].
  apply (deleted_knowledge_base_is_not_shown (Some "b") "a"); [reflexivity | discriminate].
Defined.

(** X25.  A knowledge base that was created is put first in the list,
    selected and shown, also when the list already held one with its
    identifier, and the dialog is closed.  The dialog submits nothing for
    a blank name, and otherwise the name and description trimmed. *)
Theorem created_knowledge_base_is_shown
    (kb : KnowledgeBase) (s : App.State) (name description : string) :
  selectedKb (handleSubmitCreate_resolved kb s) = Some kb
  /\ knowledgeBases (kbs (handleSubmitCreate_resolved kb s)) =
     kb :: knowledgeBases (kbs s)
  /\ showCreateModal (handleSubmitCreate_resolved kb s) = false
  /\ (JS.trim name = "" -> CreateKbModal_handleSubmit name description = None)
  /\ (JS.trim name <> "" ->
      CreateKbModal_handleSubmit name description =
      Some (JS.trim name, JS.trim description)).
Proof.
  repeat split.
  - unfold selectedKb. cbn. now rewrite String.eqb_refl.
  - intros H. unfold CreateKbModal_handleSubmit, UseChat.is_empty. now rewrite H.
  - intros H. apply String.eqb_neq in H.
    unfold CreateKbModal_handleSubmit, UseChat.is_empty. now rewrite H.
Qed.

Lemma created_knowledge_base_is_shown_witness :
  JS.trim "  Notes " <> ""
  /\ CreateKbModal_handleSubmit "  Notes " " on ML " = Some ("Notes", "on ML").
Proof.
  split; [discriminate|].
  apply (created_knowledge_base_is_shown
           (mkKnowledgeBase "a" "A" None "2025-01-01" "2025-01-01")
           {| selectedKbId := None; showCreateModal := true; connected := Some true;
              kbs := UseKnowledgeBases.initial |} "  Notes " " on ML ").
  discriminate.
Defined.

End AppFacts.
